(** * consulta_API_2.py: the TMDb harvesting pipeline, embedded in Rocq

    The script pages through the TMDb "top rated" listing, enriches every
    film with its detail and credit records, stores the films that are new
    in a MongoDB collection and records the next page in [page.txt].

    The embedding follows the source function by function:
    [get_json], [get_person_details], [process_page], [save_to_mongodb]
    and [main].  Python values coming from the API are kept dynamically
    typed ([pyval]); an operation that raises in Python returns [Raise]
    here.  The network, the MongoDB server and the calendar are inputs of
    the model ([env]); what the script mutates is explicit state.

    Conventions.
    - A Python [str] is a [string]: characters are the code points 0..255.
    - A [dict] built by [response.json()] is an association list read by
      its first matching key.
    - [print] calls are not modelled. *)

From Stdlib Require Import ZArith NArith List String Ascii Bool Lia.
From Stdlib Require Import DecimalString DecimalZ DecimalFacts.
Import ListNotations.
Open Scope string_scope.
Open Scope list_scope.
Open Scope Z_scope.
Set Warnings "-register-all".

(** ** Python values, exceptions and results *)

(** A binary floating point number: not-a-number, an infinity, or
    [(-1)^neg * m * 2^e]. *)
Inductive pyfloat : Type :=
| FNan
| FInf (neg : bool)
| FFin (neg : bool) (m : N) (e : Z).

(** What [response.json()] can return. *)
Inductive pyval : Type :=
| PNone
| PBool (b : bool)
| PInt (z : Z)
| PFloat (f : pyfloat)
| PStr (s : string)
| PList (l : list pyval)
| PDict (d : list (string * pyval)).

(** The exception classes the script can meet.  [RequestException] is the
    root of the [requests] hierarchy; every class here derives from
    [Exception]. *)
Inductive exn : Type :=
| RequestException
| ValueError
| TypeError
| KeyError
| IndexError
| AttributeError
| OverflowError
| OSError
| PyMongoError.

Inductive result (A : Type) : Type :=
| Ok (a : A)
| Raise (e : exn).
Arguments Ok {A} a.
Arguments Raise {A} e.

Definition bindR {A B} (r : result A) (k : A -> result B) : result B :=
  match r with
  | Ok a => k a
  | Raise e => Raise e
  end.

Notation "x <-? c ;; k" := (bindR c (fun x => k))
  (at level 61, c at next level, right associativity).

(** A computation over a state of type [S] that may raise: the state it
    leaves behind is kept also when it raises. *)
Definition prog (S A : Type) : Type := S -> result A * S.

Definition ret {S A} (a : A) : prog S A := fun s => (Ok a, s).

Definition lift {S A} (r : result A) : prog S A := fun s => (r, s).

Definition bind {S A B} (m : prog S A) (k : A -> prog S B) : prog S B :=
  fun s =>
    match m s with
    | (Ok a, s') => k a s'
    | (Raise e, s') => (Raise e, s')
    end.

Notation "x <- c ;; k" := (bind c (fun x => k))
  (at level 61, c at next level, right associativity).

(** Computations that issue HTTP requests thread the number of requests
    issued so far. *)
Definition net (A : Type) : Type := prog nat A.

(** ** Python primitives used by the script *)

Definition float_is_zero (f : pyfloat) : bool :=
  match f with
  | FFin _ 0%N _ => true
  | _ => false
  end.

(** [bool(v)] *)
Definition py_truthy (v : pyval) : bool :=
  match v with
  | PNone => false
  | PBool b => b
  | PInt z => negb (z =? 0)
  | PFloat f => negb (float_is_zero f)
  | PStr s => negb (String.length s =? 0)%nat
  | PList l => match l with [] => false | _ => true end
  | PDict d => match d with [] => false | _ => true end
  end.

Fixpoint assoc (k : string) (d : list (string * pyval)) : option pyval :=
  match d with
  | [] => None
  | (k', v) :: rest => if String.eqb k k' then Some v else assoc k rest
  end.

(** [d.get(k, default)]: only a dict has the method. *)
Definition py_get (d : pyval) (k : string) (default : pyval) : result pyval :=
  match d with
  | PDict kv => match assoc k kv with Some v => Ok v | None => Ok default end
  | _ => Raise AttributeError
  end.

(** [x[k]] for a string key [k]. *)
Definition py_getitem (x : pyval) (k : string) : result pyval :=
  match x with
  | PDict kv => match assoc k kv with Some v => Ok v | None => Raise KeyError end
  | _ => Raise TypeError
  end.

Definition chars (s : string) : list pyval :=
  map (fun c => PStr (String c EmptyString)) (list_ascii_of_string s).

(** [x[i]] for an index [i >= 0].  The keys of a parsed JSON object are
    strings, so an integer is never among them. *)
Definition py_index (x : pyval) (i : nat) : result pyval :=
  match x with
  | PList l => match nth_error l i with Some v => Ok v | None => Raise IndexError end
  | PStr s => match nth_error (chars s) i with Some v => Ok v | None => Raise IndexError end
  | PDict _ => Raise KeyError
  | _ => Raise TypeError
  end.

Definition slice {A} (lo hi : nat) (l : list A) : list A :=
  firstn (hi - lo) (skipn lo l).

(** [x[lo:hi]] for [0 <= lo <= hi].  A dict rejects a slice key
    ([TypeError] before Python 3.12, [KeyError] from 3.12 on). *)
Definition py_slice (x : pyval) (lo hi : nat) : result pyval :=
  match x with
  | PList l => Ok (PList (slice lo hi l))
  | PStr s => Ok (PStr (string_of_list_ascii (slice lo hi (list_ascii_of_string s))))
  | _ => Raise TypeError
  end.

(** [len(x)] *)
Definition py_len (x : pyval) : result nat :=
  match x with
  | PList l => Ok (List.length l)
  | PStr s => Ok (String.length s)
  | PDict d => Ok (List.length d)
  | _ => Raise TypeError
  end.

(** The items a [for] loop over [x] visits. *)
Definition py_iter (x : pyval) : result (list pyval) :=
  match x with
  | PList l => Ok l
  | PStr s => Ok (chars s)
  | PDict d => Ok (map (fun kv => PStr (fst kv)) d)
  | _ => Raise TypeError
  end.

(** [v == s] for a string literal [s]. *)
Definition py_eq_str (v : pyval) (s : string) : bool :=
  match v with
  | PStr t => String.eqb t s
  | _ => false
  end.

(** *** [int(...)] and [str(...)] *)

(** [str.isspace] on the code points 0..255. *)
Definition is_space (c : ascii) : bool :=
  let n := nat_of_ascii c in
  ((9 <=? n) && (n <=? 13) || (28 <=? n) && (n <=? 32)
   || (n =? 133) || (n =? 160))%nat.

Fixpoint lstrip (l : list ascii) : list ascii :=
  match l with
  | c :: rest => if is_space c then lstrip rest else l
  | [] => []
  end.

Definition strip (l : list ascii) : list ascii :=
  rev (lstrip (rev (lstrip l))).

Definition digit_of (c : ascii) : option Z :=
  let n := nat_of_ascii c in
  if ((48 <=? n) && (n <=? 57))%nat then Some (Z.of_nat n - 48) else None.

(** Decimal digits, single underscores allowed between two digits. *)
Fixpoint digits_value (acc : Z) (after_digit : bool) (l : list ascii) : option Z :=
  match l with
  | [] => if after_digit then Some acc else None
  | c :: rest =>
      match digit_of c with
      | Some d => digits_value (10 * acc + d) true rest
      | None =>
          if (Ascii.eqb c "_" && after_digit)%bool
          then digits_value acc false rest
          else None
      end
  end.

(** The white space [int] skips around a numeral: the ASCII white space
    of C, and the code points 133 and 160.  The separators 28..31, which
    [str.strip] removes, are not among them. *)
Definition is_int_space (c : ascii) : bool :=
  let n := nat_of_ascii c in
  ((9 <=? n) && (n <=? 13) || (n =? 32) || (n =? 133) || (n =? 160))%nat.

Fixpoint int_lstrip (l : list ascii) : list ascii :=
  match l with
  | c :: rest => if is_int_space c then int_lstrip rest else l
  | [] => []
  end.

Definition int_strip (l : list ascii) : list ascii :=
  rev (int_lstrip (rev (int_lstrip l))).

(** [int(s)] for a string: surrounding white space, an optional sign,
    then the digits.  The limit [int] puts on the number of digits is
    not part of this function: it is written where the text can be long,
    in [retry_after_seconds]; the other texts read are slices of four
    characters and the numerals [main] wrote. *)
Definition int_of_string (s : string) : result Z :=
  let body := int_strip (list_ascii_of_string s) in
  let (neg, ds) :=
    match body with
    | c :: rest =>
        if Ascii.eqb c "-" then (true, rest)
        else if Ascii.eqb c "+" then (false, rest)
        else (false, body)
    | [] => (false, body)
    end in
  match digits_value 0 false ds with
  | Some n => Ok (if neg then - n else n)
  | None => Raise ValueError
  end.

(** [int(f)] for a float truncates towards zero. *)
Definition int_of_float (f : pyfloat) : result Z :=
  match f with
  | FNan => Raise ValueError
  | FInf _ => Raise OverflowError
  | FFin neg m e =>
      let a := if 0 <=? e then Z.of_N m * 2 ^ e else Z.of_N m / 2 ^ (- e) in
      Ok (if neg then - a else a)
  end.

(** [int(v)] *)
Definition py_int (v : pyval) : result Z :=
  match v with
  | PStr s => int_of_string s
  | PInt z => Ok z
  | PBool b => Ok (if b then 1 else 0)
  | PFloat f => int_of_float f
  | _ => Raise TypeError
  end.

(** [str(z)] for an integer. *)
Definition py_str (z : Z) : string := NilZero.string_of_int (Z.to_int z).

(** The characters of a numeral. *)
Definition uint_chars (d : Decimal.uint) : list ascii :=
  list_ascii_of_string (NilEmpty.string_of_uint d).

(** *** Hashing and equality of set members *)

(** [hash(v)] succeeds on everything but a list or a dict. *)
Definition py_hashable (v : pyval) : bool :=
  match v with
  | PList _ | PDict _ => false
  | _ => true
  end.

Definition signed (neg : bool) (a : Z) : Z := if neg then - a else a.

(** [a == b] on floats: exact comparison of the two values; not-a-number
    equals nothing. *)
Definition float_eqb (a b : pyfloat) : bool :=
  match a, b with
  | FFin n1 m1 e1, FFin n2 m2 e2 =>
      let lo := Z.min e1 e2 in
      signed n1 (Z.of_N m1 * 2 ^ (e1 - lo)) =? signed n2 (Z.of_N m2 * 2 ^ (e2 - lo))
  | FInf n1, FInf n2 => Bool.eqb n1 n2
  | _, _ => false
  end.

(** The number a [bool], [int] or [float] stands for. *)
Definition as_number (v : pyval) : option pyfloat :=
  match v with
  | PBool b => Some (FFin false (if b then 1 else 0)%N 0)
  | PInt z => Some (FFin (z <? 0) (Z.abs_N z) 0)
  | PFloat f => Some f
  | _ => None
  end.

(** [a == b] between two hashable values, as a set look-up compares them
    (the two values are distinct objects: one was read from the store, the
    other built from an API response). *)
Definition py_eq (a b : pyval) : bool :=
  match a, b with
  | PNone, PNone => true
  | PStr s, PStr t => String.eqb s t
  | _, _ =>
      match as_number a, as_number b with
      | Some x, Some y => float_eqb x y
      | _, _ => false
      end
  end.

(** [time.sleep(secs)] for an integer.  A length that does not fit the
    nanosecond clock (64 bits, signed) is an OverflowError, a negative
    one a ValueError; a length the clock cannot reach from where it
    stands, above [longest], is an OSError. *)
Definition time_sleep (longest : Z) (secs : Z) : result unit :=
  if (secs <? -9223372036) || (9223372036 <? secs) then Raise OverflowError
  else if secs <? 0 then Raise ValueError
  else if longest <? secs then Raise OSError
  else Ok tt.

(** ** The remote API *)

(** The four resources the script reads.  A URL is kept as the resource
    and the value formatted into it. *)
Inductive endpoint : Type :=
| TopRated (page : Z)
| MovieDetails (movie_id : pyval)
| MovieCredits (movie_id : pyval)
| PersonDetails (person_id : pyval).

(** A response as the script looks at it: the status code, the
    [Retry-After] header if present, and the value [response.json()]
    returns, [None] standing for a body that is not JSON, at which it
    raises [JSONDecodeError]. *)
Record response : Type := {
  status_code : Z;
  retry_after : option string;
  json_body : option pyval
}.

(** [requests.get] either raises a [RequestException] or returns a
    response. *)
Inductive http_outcome : Type :=
| ConnectionFailed
| Responded (r : response).

(** How MongoDB behaves during one call of [save_to_mongodb].
    [InsertError k]: [insert_many] raises after [k] documents of the
    batch were written. *)
Inductive mongo_fault : Type :=
| NoFault
| ConnectError
| FindError
| InsertError (written : nat).

(** The surroundings of a run: the answer to the n-th request of the run,
    the calendar year once n requests were made, the behaviour of
    MongoDB during the n-th call of [save_to_mongodb], and how far the
    machine's monotonic clock is from its end, in seconds, once n
    requests were made. *)
Record env : Type := {
  server : nat -> endpoint -> http_outcome;
  year_at : nat -> Z;
  mongo_fault_at : nat -> mongo_fault;
  clock_room : nat -> Z
}.

(** The longest wait [time.sleep] accepts once [c] requests were made.
    It is never above 9223372036 s; a machine is taken to have at least
    the three minutes of the longest fixed wait left on its clock. *)
Definition longest_sleep (e : env) (c : nat) : Z :=
  Z.max 180 (Z.min (clock_room e c) 9223372036).

(** [time.sleep(secs)] *)
Definition sleep (e : env) (secs : Z) : net unit :=
  fun c => (time_sleep (longest_sleep e c) secs, c).

Definition requests_get (e : env) (url : endpoint) : net response :=
  fun c =>
    match server e c url with
    | ConnectionFailed => (Raise RequestException, S c)
    | Responded r => (Ok r, S c)
    end.

(** [response.json()]: a body that does not parse raises
    [requests.exceptions.JSONDecodeError], a [RequestException]. *)
Definition response_json (r : response) : result pyval :=
  match json_body r with
  | Some v => Ok v
  | None => Raise RequestException
  end.

(** ** get_json *)

(** The number of decimal digits in a text. *)
Definition count_digits (s : string) : nat :=
  List.length (filter (fun c => match digit_of c with Some _ => true | None => false end)
                 (list_ascii_of_string s)).

(** [int] refuses a numeral of more than 4300 digits with a ValueError
    (sys.int_max_str_digits). *)
Definition max_str_digits : nat := 4300.

(** [int(response.headers.get('Retry-After', 180))].  The header is
    text of any length, so the limit on digits is applied here. *)
Definition retry_after_seconds (r : response) : result Z :=
  match retry_after r with
  | Some s =>
      secs <-? py_int (PStr s) ;;
      if (max_str_digits <? count_digits s)%nat then Raise ValueError else Ok secs
  | None => py_int (PInt 180)
  end.

(** The [try] block of one attempt: [Some v] is [return v], [None] falls
    through to the next attempt. *)
Definition attempt_body (e : env) (url : endpoint) : net (option pyval) :=
  r <- requests_get e url ;;
  if status_code r =? 200 then
    lift (v <-? response_json r ;; Ok (Some v))
  else if status_code r =? 429 then
    secs <- lift (retry_after_seconds r) ;;
    _ <- sleep e secs ;;
    ret None
  else
    _ <- sleep e 5 ;;
    ret None.

Definition is_request_exception (x : exn) : bool :=
  match x with
  | RequestException => true
  | _ => false
  end.

(** The [for attempt in range(max_retries)] loop, [attempts] rounds left.
    Only a [RequestException] is handled; anything else leaves the
    function. [None] is [PNone]. *)
Fixpoint get_json_loop (e : env) (url : endpoint) (attempts : nat) : net pyval :=
  fun c =>
    match attempts with
    | O => (Ok PNone, c)
    | S k =>
        match attempt_body e url c with
        | (Ok (Some v), c') => (Ok v, c')
        | (Ok None, c') => get_json_loop e url k c'
        | (Raise x, c') =>
            if is_request_exception x
            then (_ <- sleep e 180 ;; get_json_loop e url k) c'
            else (Raise x, c')
        end
    end.

Definition get_json (e : env) (url : endpoint) (max_retries : Z) : net pyval :=
  get_json_loop e url (Z.to_nat max_retries).

(** The default of the [max_retries] parameter; every call in the script
    uses it. *)
Definition default_max_retries : Z := 3.

(** An attempt that ends in the [except] clause or falls through to the
    next round. *)
Definition retried (e : env) (url : endpoint) (c : nat) : bool :=
  match fst (attempt_body e url c) with
  | Ok (Some _) => false
  | Ok None => true
  | Raise x => is_request_exception x
  end.

(** ** get_person_details *)

Record person : Type := {
  nome : pyval;
  idade : option Z;
  nacionalidade : pyval
}.

Definition get_person_details (e : env) (person_id : pyval) : net (option person) :=
  data <- get_json e (PersonDetails person_id) default_max_retries ;;
  if py_truthy data then
    fun c =>
      (n <-? py_get data "name" PNone ;;
       nac <-? py_get data "place_of_birth" (PStr "Desconhecida") ;;
       data_nascimento <-? py_get data "birthday" PNone ;;
       age <-? (if py_truthy data_nascimento then
                  y <-? py_slice data_nascimento 0 4 ;;
                  birth <-? py_int y ;;
                  Ok (Some (year_at e c - birth))
                else Ok None) ;;
       Ok (Some {| nome := n; idade := age; nacionalidade := nac |}), c)
  else ret None.

(** ** process_page *)

(** The dictionary [filme_info]. *)
Record filme : Type := {
  titulo : pyval;
  ano : option Z;
  genero : pyval;
  diretor : pyval;
  nota : pyval;
  dataLancamento : pyval;
  atorPrincipal : option person;
  atoresCoadjuvantes : list pyval
}.

(** [next((member['name'] for member in crew if member['job'] == 'Director'),
    'Desconhecido')] *)
Fixpoint first_director (crew : list pyval) : result pyval :=
  match crew with
  | [] => Ok (PStr "Desconhecido")
  | member :: rest =>
      job <-? py_getitem member "job" ;;
      if py_eq_str job "Director" then py_getitem member "name"
      else first_director rest
  end.

(** [[actor['name'] for actor in actors]] *)
Fixpoint names (actors : list pyval) : result (list pyval) :=
  match actors with
  | [] => Ok []
  | actor :: rest =>
      n <-? py_getitem actor "name" ;;
      ns <-? names rest ;;
      Ok (n :: ns)
  end.

(** A crew entry whose role is "Director". *)
Definition is_director (member : pyval) : bool :=
  match py_getitem member "job" with
  | Ok job => py_eq_str job "Director"
  | Raise _ => false
  end.

(** [generos[0]['name'] if generos else 'Desconhecido'] on the genres
    of the detail record. *)
Definition genero_of (movie_details : pyval) : result pyval :=
  generos <-? py_get movie_details "genres" (PList []) ;;
  if py_truthy generos
  then g <-? py_index generos 0 ;; py_getitem g "name"
  else Ok (PStr "Desconhecido").

Definition diretor_of (credits : pyval) : result pyval :=
  crew <-? py_get credits "crew" (PList []) ;;
  members <-? py_iter crew ;;
  first_director members.

(** [elenco[0] if elenco else None] *)
Definition ator_principal_of (elenco : pyval) : result pyval :=
  if py_truthy elenco then py_index elenco 0 else Ok PNone.

(** [[actor['name'] for actor in elenco[1:5]] if len(elenco) > 1 else []] *)
Definition atores_coadjuvantes_of (elenco : pyval) : result (list pyval) :=
  n <-? py_len elenco ;;
  if (1 <? n)%nat
  then others <-? py_slice elenco 1 5 ;;
       actors <-? py_iter others ;;
       names actors
  else Ok [].

(** [int(movie_details.get('release_date', '0000-00-00')[:4])
    if movie_details.get('release_date') else None] *)
Definition ano_of (movie_details : pyval) : result (option Z) :=
  released <-? py_get movie_details "release_date" PNone ;;
  if py_truthy released
  then d <-? py_get movie_details "release_date" (PStr "0000-00-00") ;;
       y <-? py_slice d 0 4 ;;
       z <-? py_int y ;;
       Ok (Some z)
  else Ok None.

(** The [try] block run for one film of the listing: [Some f] appends
    [f], [None] is [continue]. *)
Definition enrich (e : env) (movie : pyval) : net (option filme) :=
  movie_id <- lift (py_getitem movie "id") ;;
  movie_details <- get_json e (MovieDetails movie_id) default_max_retries ;;
  if negb (py_truthy movie_details) then ret None else
  credits <- get_json e (MovieCredits movie_id) default_max_retries ;;
  if negb (py_truthy credits) then ret None else
  genre <- lift (genero_of movie_details) ;;
  director <- lift (diretor_of credits) ;;
  elenco <- lift (py_get credits "cast" (PList [])) ;;
  ator_principal <- lift (ator_principal_of elenco) ;;
  ator_principal_details <-
    (if py_truthy ator_principal
     then person_id <- lift (py_getitem ator_principal "id") ;;
          get_person_details e person_id
     else ret None) ;;
  atores_coadjuvantes <- lift (atores_coadjuvantes_of elenco) ;;
  title <- lift (py_get movie_details "title" PNone) ;;
  year <- lift (ano_of movie_details) ;;
  vote <- lift (py_get movie_details "vote_average" PNone) ;;
  release_date <- lift (py_get movie_details "release_date" PNone) ;;
  ret (Some {| titulo := title;
               ano := year;
               genero := genre;
               diretor := director;
               nota := vote;
               dataLancamento := release_date;
               atorPrincipal := ator_principal_details;
               atoresCoadjuvantes := atores_coadjuvantes |}).

(** The loop over the listing.  An exception raised for one film is
    caught and the film left out. *)
Fixpoint process_movies (e : env) (movies : list pyval) (page_movies : list filme)
    (c : nat) : list filme * nat :=
  match movies with
  | [] => (page_movies, c)
  | movie :: rest =>
      match enrich e movie c with
      | (Ok (Some f), c') => process_movies e rest (page_movies ++ [f]) c'
      | (Ok None, c') => process_movies e rest page_movies c'
      | (Raise _, c') => process_movies e rest page_movies c'
      end
  end.

Definition process_page (e : env) (page : Z) : net (list filme) :=
  top_rated <- get_json e (TopRated page) default_max_retries ;;
  if negb (py_truthy top_rated) then ret [] else
  results <- lift (py_get top_rated "results" (PList [])) ;;
  movies <- lift (py_iter results) ;;
  fun c => let (page_movies, c') := process_movies e movies [] c in (Ok page_movies, c').

(** ** save_to_mongodb *)

(** What the script writes durably, in the order it writes it. *)
Inductive event : Type :=
| Inserted (docs : list filme)
| Checkpoint (text : string).

(** The state a run works on: the requests issued, the calls of
    [save_to_mongodb] that reached MongoDB, the collection [filmes], the
    content of [page.txt] if the file exists, and the durable writes
    made. *)
Record world : Type := {
  clock : nat;
  saves : nat;
  store : list filme;
  page_txt : option string;
  journal : list event
}.

Definition connect_to_mongodb (f : mongo_fault) : prog world unit :=
  match f with
  | ConnectError => lift (Raise PyMongoError)
  | _ => ret tt
  end.

(** [collection.find({}, {'titulo': 1})] followed by [doc['titulo']] *)
Definition find_titles (f : mongo_fault) : prog world (list pyval) :=
  fun w =>
    match f with
    | FindError => (Raise PyMongoError, w)
    | _ => (Ok (map titulo (store w)), w)
    end.

(** Building the set hashes every title. *)
Definition py_set (l : list pyval) : result (list pyval) :=
  if forallb py_hashable l then Ok l else Raise TypeError.

(** [x in s]: [x] is hashed, then compared with the members. *)
Definition py_in (x : pyval) (s : list pyval) : result bool :=
  if py_hashable x then Ok (existsb (fun member => py_eq member x) s)
  else Raise TypeError.

(** [[filme for filme in movies if filme['titulo'] not in titulos_existentes]] *)
Fixpoint novos (titulos_existentes : list pyval) (movies : list filme) : result (list filme) :=
  match movies with
  | [] => Ok []
  | f :: rest =>
      known <-? py_in (titulo f) titulos_existentes ;;
      others <-? novos titulos_existentes rest ;;
      Ok (if known then others else f :: others)
  end.

Definition add_docs (docs : list filme) (w : world) : world :=
  {| clock := clock w;
     saves := saves w;
     store := store w ++ docs;
     page_txt := page_txt w;
     journal := journal w ++ [Inserted docs] |}.

(** [collection.insert_many(docs)]: the documents are written in order;
    a failure leaves the ones written before it. *)
Definition insert_many (f : mongo_fault) (docs : list filme) : prog world unit :=
  fun w =>
    match f with
    | InsertError k => (Raise PyMongoError, add_docs (firstn k docs) w)
    | _ => (Ok tt, add_docs docs w)
    end.

Definition begin_save (w : world) : world :=
  {| clock := clock w;
     saves := S (saves w);
     store := store w;
     page_txt := page_txt w;
     journal := journal w |}.

(** The [try] block of [save_to_mongodb]. *)
Definition save_body (f : mongo_fault) (movies : list filme) : prog world Z :=
  _ <- connect_to_mongodb f ;;
  titles <- find_titles f ;;
  titulos_existentes <- lift (py_set titles) ;;
  novos_filmes <- lift (novos titulos_existentes movies) ;;
  _ <- (match novos_filmes with
        | [] => ret tt
        | _ => insert_many f novos_filmes
        end) ;;
  ret (Z.of_nat (List.length novos_filmes)).

Definition save_to_mongodb (e : env) (movies : list filme) (w : world) : Z * world :=
  match movies with
  | [] => (0, w)
  | _ =>
      match save_body (mongo_fault_at e (saves w)) movies (begin_save w) with
      | (Ok n, w') => (n, w')
      | (Raise _, w') => (0, w')
      end
  end.

(** *** Titles in the collection *)

(** Some document of [docs] has the title [t]. *)
Definition title_in (t : pyval) (docs : list filme) : bool :=
  existsb (fun d => py_eq (titulo d) t) docs.

(** The number of documents of [docs] with the title [t]. *)
Definition count_title (t : pyval) (docs : list filme) : nat :=
  List.length (filter (fun d => py_eq (titulo d) t) docs).

(** No two documents of [docs] have the same title. *)
Fixpoint distinct_titles (docs : list filme) : bool :=
  match docs with
  | [] => true
  | d :: rest => negb (title_in (titulo d) rest) && distinct_titles rest
  end.

(** The films of a batch whose title is not in [docs]. *)
Definition fresh (docs : list filme) (movies : list filme) : list filme :=
  filter (fun f => negb (title_in (titulo f) docs)) movies.

(** A title that can be a set member and is found again when looked up:
    any value but a list, a dict or not-a-number. *)
Definition sound_title (t : pyval) : bool := py_hashable t && py_eq t t.

(** ** The checkpoint file and main *)

Definition END_PAGE : Z := 500.

Definition write_page_txt (text : string) (w : world) : world :=
  {| clock := clock w;
     saves := saves w;
     store := store w;
     page_txt := Some text;
     journal := journal w ++ [Checkpoint text] |}.

Definition py_strip (s : string) : string :=
  string_of_list_ascii (strip (list_ascii_of_string s)).

(** The module-level code that sets [START_PAGE]. *)
Definition load_start_page : prog world Z :=
  fun w =>
    match page_txt w with
    | Some text => (py_int (PStr (py_strip text)), w)
    | None => (Ok 1, write_page_txt (py_str 1) w)
    end.

(** The [for attempt in range(max_retries)] loop of [main]: the first
    attempt that does not raise sets [page_movies]; otherwise it stays
    empty. *)
Fixpoint process_with_retries (e : env) (page : Z) (attempts : nat) (c : nat)
    : list filme * nat :=
  match attempts with
  | O => ([], c)
  | S k =>
      match process_page e page c with
      | (Ok page_movies, c') => (page_movies, c')
      | (Raise _, c') => process_with_retries e page k c'
      end
  end.

Definition set_clock (c : nat) (w : world) : world :=
  {| clock := c;
     saves := saves w;
     store := store w;
     page_txt := page_txt w;
     journal := journal w |}.

(** One round of the loop over the pages, on the world and
    [total_filmes]. *)
Definition main_page (e : env) (page : Z) (st : world * Z) : world * Z :=
  let (w, total_filmes) := st in
  let (page_movies, c) := process_with_retries e page 3 (clock w) in
  let w1 := set_clock c w in
  let (total', w2) :=
    match page_movies with
    | [] => (total_filmes, w1)
    | _ => let (novos_filmes, w') := save_to_mongodb e page_movies w1 in
           (total_filmes + novos_filmes, w')
    end in
  (write_page_txt (py_str (page + 1)) w2, total').

(** [range(a, b)] *)
Definition py_range (a b : Z) : list Z :=
  map (fun i => a + Z.of_nat i) (seq 0 (Z.to_nat (b - a))).

Definition run_pages (e : env) (pages : list Z) (st : world * Z) : world * Z :=
  fold_left (fun st page => main_page e page st) pages st.

Definition main (e : env) (START_PAGE : Z) (w : world) : world * Z :=
  run_pages e (py_range START_PAGE (END_PAGE + 1)) (w, 0).

(** ** Concrete runs *)

Definition ok_response (v : pyval) : http_outcome :=
  Responded {| status_code := 200; retry_after := None; json_body := Some v |}.

Definition status_response (code : Z) : http_outcome :=
  Responded {| status_code := code; retry_after := None; json_body := None |}.

(** A throttling response whose [Retry-After] is an HTTP date. *)
Definition throttled_until_date : http_outcome :=
  Responded {| status_code := 429;
               retry_after := Some "Wed, 21 Oct 2015 07:28:00 GMT";
               json_body := None |}.

Definition quiet_env (srv : nat -> endpoint -> http_outcome) : env :=
  {| server := srv;
     year_at := fun _ => 2025;
     mongo_fault_at := fun _ => NoFault;
     clock_room := fun _ => 9223357447 |}.

(** Every request is throttled with an HTTP date. *)
Definition env_throttled : env := quiet_env (fun _ _ => throttled_until_date).

(** A server error, then a dropped connection, then a throttling
    response with an HTTP date. *)
Definition env_three_failures : env :=
  quiet_env (fun c _ =>
    match c with
    | O => status_response 500
    | S O => ConnectionFailed
    | _ => throttled_until_date
    end).


Definition named (n : string) : pyval := PDict [("name", PStr n)].

Definition is_id (v : pyval) (n : Z) : bool :=
  match v with
  | PInt z => z =? n
  | _ => false
  end.

Definition cast_of_ten : pyval :=
  PList [PDict [("id", PInt 10); ("name", PStr "John Roe")];
         named "S1"; named "S2"; named "S3"; named "S4"; named "S5";
         named "S6"; named "S7"; named "S8"; named "S9"].

(** A listing of two films.  Film 1 has a genre, two directors, ten cast
    members and a lead whose place of birth is null; the detail record
    of film 2 is refused. *)
Definition env_two_films : env :=
  quiet_env (fun _ url =>
    match url with
    | TopRated _ =>
        ok_response (PDict [("results", PList [PDict [("id", PInt 1)];
                                               PDict [("id", PInt 2)]])])
    | MovieDetails i =>
        if is_id i 1
        then ok_response (PDict [("title", PStr "A");
                                 ("release_date", PStr "1999-03-31");
                                 ("genres", PList [named "Drama"; named "Crime"]);
                                 ("vote_average", PInt 8)])
        else status_response 500
    | MovieCredits _ =>
        ok_response (PDict [("crew", PList [PDict [("job", PStr "Producer"); ("name", PStr "P")];
                                            PDict [("job", PStr "Director"); ("name", PStr "Jane Doe")];
                                            PDict [("job", PStr "Director"); ("name", PStr "Joe Bloggs")]]);
                            ("cast", cast_of_ten)])
    | PersonDetails _ =>
        ok_response (PDict [("name", PStr "John Roe");
                            ("birthday", PStr "1975-06-01");
                            ("place_of_birth", PNone)])
    end).

Definition film_1 : filme :=
  {| titulo := PStr "A";
     ano := Some 1999;
     genero := PStr "Drama";
     diretor := PStr "Jane Doe";
     nota := PInt 8;
     dataLancamento := PStr "1999-03-31";
     atorPrincipal := Some {| nome := PStr "John Roe";
                              idade := Some 50;
                              nacionalidade := PNone |};
     atoresCoadjuvantes := [PStr "S1"; PStr "S2"; PStr "S3"; PStr "S4"] |}.

(** One film whose lead cannot be looked up (HTTP 500 at every attempt);
    [second] is the second cast entry. *)
Definition env_lookup_fails (second : pyval) : env :=
  quiet_env (fun _ url =>
    match url with
    | TopRated _ => ok_response (PDict [("results", PList [PDict [("id", PInt 1)]])])
    | MovieDetails _ => ok_response (PDict [("title", PStr "B")])
    | MovieCredits _ =>
        ok_response (PDict [("cast", PList [PDict [("id", PInt 10); ("name", PStr "Lead")];
                                            second])])
    | PersonDetails _ => status_response 500
    end).

Definition film_without_lead : filme :=
  {| titulo := PStr "B";
     ano := None;
     genero := PStr "Desconhecido";
     diretor := PStr "Desconhecido";
     nota := PNone;
     dataLancamento := PNone;
     atorPrincipal := None;
     atoresCoadjuvantes := [PStr "Second"] |}.

(** One film whose detail and credit records are served, while the
    lookup of its lead is throttled with an HTTP date. *)
Definition env_lead_throttled : env :=
  quiet_env (fun _ url =>
    match url with
    | TopRated _ => ok_response (PDict [("results", PList [PDict [("id", PInt 1)]])])
    | MovieDetails _ => ok_response (PDict [("title", PStr "B")])
    | MovieCredits _ =>
        ok_response (PDict [("cast", PList [PDict [("id", PInt 10); ("name", PStr "Lead")];
                                            named "Second"])])
    | PersonDetails _ => throttled_until_date
    end).

Definition world0 : world :=
  {| clock := 0; saves := 0; store := []; page_txt := None; journal := [] |}.

Definition film_titled (t : string) (y : Z) : filme :=
  {| titulo := PStr t;
     ano := Some y;
     genero := PStr "Drama";
     diretor := PStr "Desconhecido";
     nota := PInt 7;
     dataLancamento := PNone;
     atorPrincipal := None;
     atoresCoadjuvantes := [] |}.

(** Two different films with one title. *)
Definition homonyms : list filme := [film_titled "X" 1954; film_titled "X" 2003].

(** MongoDB cannot be reached during the first call of [save_to_mongodb]. *)
Definition env_mongo_down : env :=
  {| server := server env_two_films;
     year_at := year_at env_two_films;
     mongo_fault_at := fun n => match n with O => ConnectError | _ => NoFault end;
     clock_room := clock_room env_two_films |}.

(** ** Notions used to state further properties *)

(** An outcome of request number [c] after which [get_json] goes on to
    its next attempt: a dropped connection, a 200 whose body does not
    parse, a 429 whose wait [int] reads and [time.sleep] accepts, or any
    other status. *)
Definition retriable (e : env) (c : nat) (o : http_outcome) : bool :=
  match o with
  | ConnectionFailed => true
  | Responded r =>
      if status_code r =? 200 then
        match json_body r with Some _ => false | None => true end
      else if status_code r =? 429 then
        match retry_after_seconds r with
        | Ok secs => (0 <=? secs) && (secs <=? longest_sleep e (S c))
        | Raise _ => false
        end
      else true
  end.

(** A server error, then a dropped connection, then the listing. *)
Definition env_third_attempt : env :=
  quiet_env (fun c _ =>
    match c with
    | O => status_response 500
    | S O => ConnectionFailed
    | _ => ok_response (PDict [("results", PList [])])
    end).

(** Every request is answered with HTTP 503. *)
Definition env_unavailable : env := quiet_env (fun _ _ => status_response 503).


(** Every request is throttled with a negative [Retry-After]. *)
Definition env_throttled_negative : env :=
  quiet_env (fun _ _ =>
    Responded {| status_code := 429; retry_after := Some "-1"; json_body := None |}).

(** The value of [d.get(k)]. *)
Definition get_or_none (d : list (string * pyval)) (k : string) : pyval :=
  match assoc k d with
  | Some v => v
  | None => PNone
  end.

(** The person record is [body]; films 1 and 2 as in [env_two_films]. *)
Definition env_person (body : pyval) : env :=
  quiet_env (fun c url =>
    match url with
    | PersonDetails _ => ok_response body
    | _ => server env_two_films c url
    end).

(** One film with a title and an empty crew, and no cast at all. *)
Definition env_bare_film : env :=
  quiet_env (fun _ url =>
    match url with
    | TopRated _ => ok_response (PDict [("results", PList [PDict [("id", PInt 3)]])])
    | MovieDetails _ => ok_response (PDict [("title", PStr "C")])
    | MovieCredits _ => ok_response (PDict [("crew", PList [])])
    | PersonDetails _ => status_response 404
    end).

Definition film_bare : filme :=
  {| titulo := PStr "C";
     ano := None;
     genero := PStr "Desconhecido";
     diretor := PStr "Desconhecido";
     nota := PNone;
     dataLancamento := PNone;
     atorPrincipal := None;
     atoresCoadjuvantes := [] |}.

(** [m] issues at most [k] requests, whether it returns or raises. *)
Definition requests_within (k : nat) {A} (m : net A) : Prop :=
  forall c, (c <= snd (m c) <= c + k)%nat.

(** [insert_many] fails after the first document of the batch. *)
Definition env_insert_breaks : env :=
  {| server := server env_two_films;
     year_at := year_at env_two_films;
     mongo_fault_at := fun _ => InsertError 1;
     clock_room := clock_room env_two_films |}.

(** A title that is a list. *)
Definition film_list_title : filme :=
  {| titulo := PList [PStr "A"; PStr "B"];
     ano := None;
     genero := PStr "Desconhecido";
     diretor := PStr "Desconhecido";
     nota := PNone;
     dataLancamento := PNone;
     atorPrincipal := None;
     atoresCoadjuvantes := [] |}.

(** The texts written to page.txt, in the order of the writes. *)
Fixpoint checkpoints (j : list event) : list string :=
  match j with
  | [] => []
  | Checkpoint text :: rest => text :: checkpoints rest
  | Inserted _ :: rest => checkpoints rest
  end.

(** page.txt holds "12" followed by a line feed. *)
Definition world_at_12 : world :=
  {| clock := 0; saves := 0; store := [];
     page_txt := Some (string_of_list_ascii
                         ([] ++ list_ascii_of_string (py_str 12) ++ ["010"%char]));
     journal := [] |}.
(** ** Facts about the state-and-error plumbing *)

Lemma bindR_ok {A B} (r : result A) (k : A -> result B) (b : B) :
  bindR r k = Ok b -> exists a, r = Ok a /\ k a = Ok b.
Proof.
  destruct r as [a|x]; simpl; intros H; [exists a; auto | discriminate].
Qed.

Lemma bind_ok {S A B} (m : prog S A) (k : A -> prog S B) s b s' :
  bind m k s = (Ok b, s') -> exists a s1, m s = (Ok a, s1) /\ k a s1 = (Ok b, s').
Proof.
  unfold bind. destruct (m s) as [[a|x] s1]; intros H.
  - exists a, s1. auto.
  - discriminate.
Qed.

Lemma lift_ok {S A} (r : result A) (s s' : S) (a : A) :
  lift r s = (Ok a, s') -> r = Ok a /\ s' = s.
Proof. unfold lift. intros H. inversion H. auto. Qed.

Lemma ret_ok {S A} (a b : A) (s s' : S) :
  ret a s = (Ok b, s') -> b = a /\ s' = s.
Proof. unfold ret. intros H. inversion H. auto. Qed.

(** ** get_json *)

Lemma attempt_body_clock e url c : snd (attempt_body e url c) = S c.
Proof.
  unfold attempt_body, bind, requests_get, lift, sleep, ret.
  destruct (server e c url) as [|r]; simpl; [reflexivity|].
  destruct (status_code r =? 200); [reflexivity|].
  destruct (status_code r =? 429).
  - destruct (retry_after_seconds r) as [secs|x]; [|reflexivity].
    destruct (time_sleep (longest_sleep e (S c)) secs); reflexivity.
  - destruct (time_sleep (longest_sleep e (S c)) 5); reflexivity.
Qed.

Lemma longest_sleep_bounds e c : 180 <= longest_sleep e c <= 9223372036.
Proof. unfold longest_sleep. lia. Qed.

(** A wait within the range the clock accepts. *)
Lemma time_sleep_ok longest secs :
  180 <= longest <= 9223372036 ->
  0 <= secs <= longest ->
  time_sleep longest secs = Ok tt.
Proof.
  intros Hl Hs. unfold time_sleep.
  destruct (Z.ltb_spec secs (-9223372036)); [lia|].
  destruct (Z.ltb_spec 9223372036 secs); [lia|]. simpl.
  destruct (Z.ltb_spec secs 0); [lia|].
  destruct (Z.ltb_spec longest secs); [lia|]. reflexivity.
Qed.

Lemma sleep_fixed e secs c :
  0 <= secs <= 180 -> sleep e secs c = (Ok tt, c).
Proof.
  intros H. unfold sleep. pose proof (longest_sleep_bounds e c) as Hb.
  rewrite time_sleep_ok by lia. reflexivity.
Qed.

(** One round of the loop. *)
Lemma get_json_loop_step e url k c :
  get_json_loop e url (S k) c =
  match fst (attempt_body e url c) with
  | Ok (Some v) => (Ok v, S c)
  | Ok None => get_json_loop e url k (S c)
  | Raise x =>
      if is_request_exception x then get_json_loop e url k (S c)
      else (Raise x, S c)
  end.
Proof.
  simpl. pose proof (attempt_body_clock e url c) as Hc.
  destruct (attempt_body e url c) as [[[v|]|x] c']; simpl in *; subst c';
    try reflexivity.
  destruct (is_request_exception x); [|reflexivity].
  unfold bind. rewrite sleep_fixed by lia. reflexivity.
Qed.

Lemma get_json_loop_retry e url k c :
  retried e url c = true ->
  get_json_loop e url (S k) c = get_json_loop e url k (S c).
Proof.
  unfold retried. intros H. simpl.
  pose proof (attempt_body_clock e url c) as Hc.
  destruct (attempt_body e url c) as [[[v|]|x] c']; simpl in *; subst c'.
  - discriminate.
  - reflexivity.
  - rewrite H. unfold bind. rewrite sleep_fixed by lia. reflexivity.
Qed.

(** The first attempt that returns ends the call with its body. *)
Lemma get_json_loop_success e url v : forall k n c,
  (forall i, (i < k)%nat -> retried e url (c + i)%nat = true) ->
  fst (attempt_body e url (c + k)%nat) = Ok (Some v) ->
  (k < n)%nat ->
  get_json_loop e url n c = (Ok v, S (c + k)%nat).
Proof.
  induction k as [|k IH]; intros n c Hr Hs Hn.
  - destruct n as [|n]; [lia|]. rewrite Nat.add_0_r in *. simpl.
    pose proof (attempt_body_clock e url c) as Hc.
    destruct (attempt_body e url c) as [r c']; simpl in *. subst. reflexivity.
  - destruct n as [|n]; [lia|].
    rewrite get_json_loop_retry.
    + rewrite (IH n (S c)).
      * f_equal. f_equal. lia.
      * intros i Hi. replace (S c + i)%nat with (c + S i)%nat by lia. apply Hr. lia.
      * replace (S c + k)%nat with (c + S k)%nat by lia. exact Hs.
      * lia.
    + rewrite <- (Nat.add_0_r c). apply Hr. lia.
Qed.

(** When every attempt of the budget is retried the call returns [None]. *)
Lemma get_json_loop_exhausted e url : forall n c,
  (forall i, (i < n)%nat -> retried e url (c + i)%nat = true) ->
  get_json_loop e url n c = (Ok PNone, (c + n)%nat).
Proof.
  induction n as [|n IH]; intros c Hr.
  - simpl. rewrite Nat.add_0_r. reflexivity.
  - rewrite get_json_loop_retry.
    + rewrite IH.
      * f_equal. lia.
      * intros i Hi. replace (S c + i)%nat with (c + S i)%nat by lia. apply Hr. lia.
    + rewrite <- (Nat.add_0_r c). apply Hr. lia.
Qed.

Lemma int_of_string_raise s x : int_of_string s = Raise x -> x = ValueError.
Proof.
  unfold int_of_string.
  destruct (int_strip (list_ascii_of_string s)) as [|a l].
  - destruct (digits_value 0 false []); intros H; inversion H; reflexivity.
  - destruct (if Ascii.eqb a "-" then (true, l)
              else if Ascii.eqb a "+" then (false, l) else (false, a :: l))
      as [ng ds].
    destruct (digits_value 0 false ds); intros H; inversion H; reflexivity.
Qed.

Lemma retry_after_seconds_raise r x :
  retry_after_seconds r = Raise x -> x = ValueError.
Proof.
  unfold retry_after_seconds. destruct (retry_after r) as [s|]; [|discriminate].
  simpl. destruct (int_of_string s) as [secs|y] eqn:Hs; simpl.
  - destruct (max_str_digits <? count_digits s)%nat; intros H; inversion H; reflexivity.
  - intros H. inversion H; subst. apply int_of_string_raise in Hs. exact Hs.
Qed.

(** What [time.sleep] does with a wait. *)
Lemma time_sleep_cases longest secs :
  180 <= longest <= 9223372036 ->
  (0 <= secs <= longest /\ time_sleep longest secs = Ok tt) \/
  (~ 0 <= secs <= longest /\
   exists x, time_sleep longest secs = Raise x /\
             (x = ValueError \/ x = OverflowError \/ x = OSError)).
Proof.
  intros Hl. unfold time_sleep.
  destruct (Z.ltb_spec secs (-9223372036)); simpl.
  { right. split; [lia|]. eauto. }
  destruct (Z.ltb_spec 9223372036 secs); simpl.
  { right. split; [lia|]. eauto. }
  destruct (Z.ltb_spec secs 0).
  { right. split; [lia|]. eauto. }
  destruct (Z.ltb_spec longest secs).
  { right. split; [lia|]. eauto 6. }
  left. split; [lia | reflexivity].
Qed.

(** An attempt is retried exactly when its outcome is [retriable]. *)
Lemma retried_retriable e url c :
  retried e url c = retriable e c (server e c url).
Proof.
  unfold retried, retriable, attempt_body, bind, requests_get, lift, sleep, ret.
  destruct (server e c url) as [|r]; simpl; [reflexivity|].
  destruct (status_code r =? 200).
  - unfold response_json. destruct (json_body r); reflexivity.
  - destruct (status_code r =? 429); simpl.
    + destruct (retry_after_seconds r) as [secs|x] eqn:Hs; simpl.
      * destruct (time_sleep_cases (longest_sleep e (S c)) secs
                    (longest_sleep_bounds e (S c)))
          as [[Hin Hok]|[Hout (x & Hx & Hcls)]].
        -- rewrite Hok. simpl. symmetry. apply andb_true_iff.
           split; apply Z.leb_le; lia.
        -- rewrite Hx. simpl.
           assert (Hrx : is_request_exception x = false)
             by (destruct Hcls as [->|[->| ->]]; reflexivity).
           rewrite Hrx. symmetry. apply andb_false_iff.
           destruct (Z.leb_spec 0 secs); [|auto].
           right. apply Z.leb_gt. lia.
      * apply retry_after_seconds_raise in Hs. subst x. reflexivity.
    + rewrite time_sleep_ok by (pose proof (longest_sleep_bounds e (S c)); lia).
      reflexivity.
Qed.

(** An attempt is retried unless it returns or its throttling response
    carries a [Retry-After] that [int] or [time.sleep] rejects. *)
Lemma retried_iff e url c :
  retried e url c = true <->
  match server e c url with
  | ConnectionFailed => True
  | Responded r =>
      if status_code r =? 200 then json_body r = None
      else if status_code r =? 429
      then exists secs, retry_after_seconds r = Ok secs /\
                        0 <= secs <= longest_sleep e (S c)
      else True
  end.
Proof.
  rewrite retried_retriable. unfold retriable.
  destruct (server e c url) as [|r]; [tauto|].
  destruct (status_code r =? 200).
  - destruct (json_body r); split; intros; congruence.
  - destruct (status_code r =? 429); [|tauto].
    destruct (retry_after_seconds r) as [secs|x].
    + rewrite andb_true_iff, !Z.leb_le. split.
      * intros H. exists secs. auto.
      * intros (s & Hs & H). inversion Hs; subst. exact H.
    + split; [discriminate|]. intros (s & Hs & _). discriminate.
Qed.

(** C10: a throttling response (HTTP 429) whose Retry-After header is
    present but is not the text of an integer makes the fetch raise
    ValueError out of the call after that single request, whatever
    attempts remain: it neither retries nor returns None. *)
Theorem get_json_unparsable_retry_after e url c r s max_retries :
  server e c url = Responded r ->
  status_code r = 429 ->
  retry_after r = Some s ->
  int_of_string s = Raise ValueError ->
  0 < max_retries ->
  get_json e url max_retries c = (Raise ValueError, S c).
Proof.
  intros Hsrv Hst Hra Hint Hpos.
  unfold get_json.
  destruct (Z.to_nat max_retries) as [|k] eqn:Hk; [lia|].
  simpl. unfold attempt_body, bind, requests_get, lift.
  rewrite Hsrv, Hst. simpl.
  unfold retry_after_seconds. rewrite Hra. simpl. rewrite Hint. reflexivity.
Qed.

Lemma get_json_unparsable_retry_after_witness :
  get_json env_throttled (TopRated 1) default_max_retries 0%nat = (Raise ValueError, 1%nat).
Proof.
  apply (get_json_unparsable_retry_after env_throttled (TopRated 1) 0%nat
           {| status_code := 429;
              retry_after := Some "Wed, 21 Oct 2015 07:28:00 GMT";
              json_body := None |}
           "Wed, 21 Oct 2015 07:28:00 GMT" default_max_retries);
    try reflexivity.
Defined.

(** C4: at a call whose three attempts all fail (HTTP 500, a dropped
    connection, HTTP 429 with an HTTP-date Retry-After) the fetch raises
    ValueError instead of returning None. *)
Theorem get_json_three_failures_raise :
  get_json env_three_failures (TopRated 1) default_max_retries 0%nat
  = (Raise ValueError, 3%nat).
Proof. reflexivity. Qed.

(** ** get_person_details *)

(** The profile of a lookup that succeeds: the place of birth is the
    value under the key when the key is present, null included. *)
Lemma get_person_details_profile e person_id c p c' :
  get_person_details e person_id c = (Ok (Some p), c') ->
  exists d,
    get_json e (PersonDetails person_id) default_max_retries c = (Ok (PDict d), c') /\
    nacionalidade p = match assoc "place_of_birth" d with
                      | Some v => v
                      | None => PStr "Desconhecida"
                      end.
Proof.
  unfold get_person_details. intros H.
  apply bind_ok in H. destruct H as (data & c1 & Hj & H).
  destruct (py_truthy data) eqn:Ht.
  - inversion H as [[Hp Hc]]. subst c1.
    apply bindR_ok in Hp. destruct Hp as (n & Hn & Hp).
    apply bindR_ok in Hp. destruct Hp as (nac & Hnac & Hp).
    apply bindR_ok in Hp. destruct Hp as (dn & Hdn & Hp).
    apply bindR_ok in Hp. destruct Hp as (age & Hage & Hp).
    inversion Hp; subst p; simpl.
    destruct data; simpl in Hnac; try discriminate.
    exists d. split; [exact Hj|].
    destruct (assoc "place_of_birth" d); inversion Hnac; reflexivity.
  - apply ret_ok in H. destruct H. discriminate.
Qed.

(** C9: for a person whose record carries "place_of_birth": null the
    lookup succeeds and the profile's nacionalidade is None, not the
    sentinel. *)
Theorem get_person_details_null_birthplace :
  get_person_details env_two_films (PInt 10) 0%nat
  = (Ok (Some {| nome := PStr "John Roe";
                 idade := Some 50;
                 nacionalidade := PNone |}), 1%nat).
Proof. reflexivity. Qed.

(** ** process_page: one film *)

Ltac step H x s Hx :=
  apply bind_ok in H; destruct H as (x & s & Hx & H).

Ltac pure H :=
  apply lift_ok in H; let E := fresh in destruct H as [H E]; subst.

(** What a film that is appended went through. *)
Lemma enrich_inv e movie c f c' :
  enrich e movie c = (Ok (Some f), c') ->
  exists movie_id details c1 credits c2 elenco ator_principal,
    py_getitem movie "id" = Ok movie_id /\
    get_json e (MovieDetails movie_id) default_max_retries c = (Ok details, c1) /\
    py_truthy details = true /\
    get_json e (MovieCredits movie_id) default_max_retries c1 = (Ok credits, c2) /\
    py_truthy credits = true /\
    genero_of details = Ok (genero f) /\
    diretor_of credits = Ok (diretor f) /\
    py_get credits "cast" (PList []) = Ok elenco /\
    ator_principal_of elenco = Ok ator_principal /\
    (if py_truthy ator_principal
     then person_id <- lift (py_getitem ator_principal "id") ;;
          get_person_details e person_id
     else ret None) c2 = (Ok (atorPrincipal f), c') /\
    atores_coadjuvantes_of elenco = Ok (atoresCoadjuvantes f) /\
    py_get details "title" PNone = Ok (titulo f) /\
    ano_of details = Ok (ano f) /\
    py_get details "vote_average" PNone = Ok (nota f) /\
    py_get details "release_date" PNone = Ok (dataLancamento f).
Proof.
  unfold enrich. intros H.
  step H movie_id s0 Hid. pure Hid.
  step H details c1 Hd.
  destruct (py_truthy details) eqn:Htd; simpl in H;
    [|apply ret_ok in H; destruct H; discriminate].
  step H credits c2 Hc.
  destruct (py_truthy credits) eqn:Htc; simpl in H;
    [|apply ret_ok in H; destruct H; discriminate].
  step H g s1 Hg. pure Hg.
  step H d s2 Hdir. pure Hdir.
  step H elenco s3 He. pure He.
  step H ator s4 Ha. pure Ha.
  step H apd c3 Hp.
  step H coadj s5 Hco. pure Hco.
  step H title s6 Ht. pure Ht.
  step H yr s7 Hy. pure Hy.
  step H vote s8 Hv. pure Hv.
  step H rd s9 Hr. pure Hr.
  apply ret_ok in H. destruct H as [Hf Hc']. inversion Hf; subst; simpl.
  exists movie_id, details, c1, credits, c2, elenco, ator.
  repeat (split; [assumption|]). assumption.
Qed.

Lemma first_director_find : forall crew d,
  first_director crew = Ok d ->
  match find is_director crew with
  | Some member => py_getitem member "name" = Ok d
  | None => d = PStr "Desconhecido"
  end.
Proof.
  induction crew as [|member rest IH]; intros d H; simpl in *.
  - inversion H. reflexivity.
  - apply bindR_ok in H. destruct H as (job & Hjob & H).
    unfold is_director. rewrite Hjob.
    destruct (py_eq_str job "Director"); [exact H | apply IH; exact H].
Qed.

(** C6: in every record the page processor appends, the genre is
    "Desconhecido" when the detail record's genre list is empty, and the
    director is the name of the first crew entry, in crew order, whose
    job is "Director", or "Desconhecido" when the crew list has no such
    entry. *)
Theorem enrich_genero_diretor e movie c f c' :
  enrich e movie c = (Ok (Some f), c') ->
  exists movie_id details c1 credits c2,
    py_getitem movie "id" = Ok movie_id /\
    get_json e (MovieDetails movie_id) default_max_retries c = (Ok details, c1) /\
    get_json e (MovieCredits movie_id) default_max_retries c1 = (Ok credits, c2) /\
    (py_get details "genres" (PList []) = Ok (PList []) ->
     genero f = PStr "Desconhecido") /\
    (forall crew, py_get credits "crew" (PList []) = Ok (PList crew) ->
       match find is_director crew with
       | Some member => py_getitem member "name" = Ok (diretor f)
       | None => diretor f = PStr "Desconhecido"
       end).
Proof.
  intros H. apply enrich_inv in H.
  destruct H as (movie_id & details & c1 & credits & c2 & elenco & ator &
                 Hid & Hd & _ & Hc & _ & Hg & Hdir & _).
  exists movie_id, details, c1, credits, c2.
  repeat (split; [assumption|]). split.
  - intros Hempty. unfold genero_of in Hg. rewrite Hempty in Hg.
    simpl in Hg. inversion Hg. reflexivity.
  - intros crew Hcrew. unfold diretor_of in Hdir. rewrite Hcrew in Hdir.
    simpl in Hdir. apply first_director_find. exact Hdir.
Qed.

Lemma enrich_two_films :
  enrich env_two_films (PDict [("id", PInt 1)]) 1%nat = (Ok (Some film_1), 4%nat).
Proof. reflexivity. Qed.

Lemma enrich_genero_diretor_witness :
  exists movie_id details c1 credits c2,
    py_getitem (PDict [("id", PInt 1)]) "id" = Ok movie_id /\
    get_json env_two_films (MovieDetails movie_id) default_max_retries 1%nat = (Ok details, c1) /\
    get_json env_two_films (MovieCredits movie_id) default_max_retries c1 = (Ok credits, c2) /\
    (py_get details "genres" (PList []) = Ok (PList []) ->
     genero film_1 = PStr "Desconhecido") /\
    (forall crew, py_get credits "crew" (PList []) = Ok (PList crew) ->
       match find is_director crew with
       | Some member => py_getitem member "name" = Ok (diretor film_1)
       | None => diretor film_1 = PStr "Desconhecido"
       end).
Proof.
  exact (enrich_genero_diretor env_two_films (PDict [("id", PInt 1)]) 1%nat
           film_1 4%nat eq_refl).
Defined.

Lemma names_nth : forall actors ns,
  names actors = Ok ns ->
  List.length ns = List.length actors /\
  forall i n, nth_error ns i = Some n ->
    exists actor, nth_error actors i = Some actor /\ py_getitem actor "name" = Ok n.
Proof.
  induction actors as [|actor rest IH]; intros ns H; simpl in H.
  - inversion H. split; [reflexivity|]. intros [|i] n Hn; discriminate.
  - apply bindR_ok in H. destruct H as (n0 & Hn0 & H).
    apply bindR_ok in H. destruct H as (ns0 & Hns0 & H).
    inversion H; subst ns. destruct (IH ns0 Hns0) as [Hlen Hnth].
    split; [simpl; congruence|].
    intros [|i] n Hn; simpl in *.
    + inversion Hn; subst. exists actor. auto.
    + apply Hnth. exact Hn.
Qed.

Lemma slice_1_5_length {A} (l : list A) :
  List.length (slice 1 5 l) = Nat.min 4 (List.length l - 1).
Proof.
  unfold slice. rewrite length_firstn, length_skipn. reflexivity.
Qed.

Lemma slice_1_5_nth {A} (l : list A) i x :
  nth_error (slice 1 5 l) i = Some x -> nth_error l (S i) = Some x.
Proof.
  unfold slice. intros H.
  assert (Hi : (i < 4)%nat).
  { destruct (Nat.lt_ge_cases i 4) as [Hlt|Hge]; [exact Hlt|].
    rewrite nth_error_firstn in H.
    destruct (Nat.ltb_spec i (5 - 1)); [simpl in *; lia | discriminate]. }
  rewrite nth_error_firstn in H.
  destruct (Nat.ltb_spec i (5 - 1)); [|discriminate].
  rewrite nth_error_skipn in H. exact H.
Qed.

Lemma atores_coadjuvantes_of_list cast ns :
  atores_coadjuvantes_of (PList cast) = Ok ns -> names (slice 1 5 cast) = Ok ns.
Proof.
  unfold atores_coadjuvantes_of. simpl.
  destruct (Nat.ltb_spec 1 (List.length cast)) as [Hlt|Hge]; intros H.
  - exact H.
  - inversion H; subst.
    destruct cast as [|a [|b rest]]; simpl in *; try reflexivity. lia.
Qed.

(** C7: in every record the page processor appends, the supporting names
    are the names of the cast entries at positions 1 to 4, in cast
    order: there are min(4, cast length - 1) of them, the i-th is the
    name of cast entry i+1, and a cast of 10 keeps exactly 4. *)
Theorem enrich_atores_coadjuvantes e movie c f c' :
  enrich e movie c = (Ok (Some f), c') ->
  exists movie_id credits c1 c2,
    py_getitem movie "id" = Ok movie_id /\
    get_json e (MovieCredits movie_id) default_max_retries c1 = (Ok credits, c2) /\
    forall cast, py_get credits "cast" (PList []) = Ok (PList cast) ->
      List.length (atoresCoadjuvantes f) = Nat.min 4 (List.length cast - 1) /\
      (forall i n, nth_error (atoresCoadjuvantes f) i = Some n ->
         exists actor, nth_error cast (S i) = Some actor /\
                       py_getitem actor "name" = Ok n) /\
      (List.length cast = 10%nat -> List.length (atoresCoadjuvantes f) = 4%nat).
Proof.
  intros H. apply enrich_inv in H.
  destruct H as (movie_id & details & c1 & credits & c2 & elenco & ator &
                 Hid & _ & _ & Hc & _ & _ & _ & He & _ & _ & Hco & _).
  exists movie_id, credits, c1, c2.
  repeat (split; [assumption|]).
  intros cast Hcast. rewrite Hcast in He. inversion He; subst elenco.
  apply atores_coadjuvantes_of_list in Hco.
  apply names_nth in Hco. destruct Hco as [Hlen Hnth].
  rewrite slice_1_5_length in Hlen.
  split; [exact Hlen|]. split.
  - intros i n Hn. destruct (Hnth i n Hn) as (actor & Ha & Hname).
    exists actor. split; [apply slice_1_5_nth; exact Ha | exact Hname].
  - intros H10. rewrite Hlen, H10. reflexivity.
Qed.

Lemma enrich_atores_coadjuvantes_witness :
  exists movie_id credits c1 c2,
    py_getitem (PDict [("id", PInt 1)]) "id" = Ok movie_id /\
    get_json env_two_films (MovieCredits movie_id) default_max_retries c1 = (Ok credits, c2) /\
    forall cast, py_get credits "cast" (PList []) = Ok (PList cast) ->
      List.length (atoresCoadjuvantes film_1) = Nat.min 4 (List.length cast - 1) /\
      (forall i n, nth_error (atoresCoadjuvantes film_1) i = Some n ->
         exists actor, nth_error cast (S i) = Some actor /\
                       py_getitem actor "name" = Ok n) /\
      (List.length cast = 10%nat -> List.length (atoresCoadjuvantes film_1) = 4%nat).
Proof.
  exact (enrich_atores_coadjuvantes env_two_films (PDict [("id", PInt 1)]) 1%nat
           film_1 4%nat eq_refl).
Defined.

Lemma genero_of_dict details g :
  genero_of details = Ok g -> exists d, details = PDict d.
Proof.
  unfold genero_of. destruct details; simpl; try discriminate. eauto.
Qed.

(** A lookup that returns None does not cost the film: when the detail
    and credit fetches succeed, the first cast entry has an id, its
    person lookup returns None, and genre, director, supporting names
    and year are derived without an exception, the film is appended
    with atorPrincipal None. *)
Lemma enrich_lookup_returns_none e movie c movie_id details c1 credits c2
    actor rest person_id c3 g d names_ y :
  py_getitem movie "id" = Ok movie_id ->
  get_json e (MovieDetails movie_id) default_max_retries c = (Ok details, c1) ->
  py_truthy details = true ->
  get_json e (MovieCredits movie_id) default_max_retries c1 = (Ok credits, c2) ->
  py_truthy credits = true ->
  py_get credits "cast" (PList []) = Ok (PList (actor :: rest)) ->
  py_truthy actor = true ->
  py_getitem actor "id" = Ok person_id ->
  get_person_details e person_id c2 = (Ok None, c3) ->
  genero_of details = Ok g ->
  diretor_of credits = Ok d ->
  atores_coadjuvantes_of (PList (actor :: rest)) = Ok names_ ->
  ano_of details = Ok y ->
  exists f,
    enrich e movie c = (Ok (Some f), c3) /\
    atorPrincipal f = None /\
    genero f = g /\ diretor f = d /\ atoresCoadjuvantes f = names_ /\ ano f = y.
Proof.
  intros Hid Hd Htd Hc Htc Hcast Hta Hpid Hp Hg Hdir Hco Hy.
  destruct (genero_of_dict _ _ Hg) as [kv ->].
  pose (field k := match assoc k kv with Some v => v | None => PNone end).
  exists {| titulo := field "title";
            ano := y;
            genero := g;
            diretor := d;
            nota := field "vote_average";
            dataLancamento := field "release_date";
            atorPrincipal := None;
            atoresCoadjuvantes := names_ |}.
  split.
  - unfold enrich, bind, lift, ret.
    rewrite Hid, Hd, Htd. simpl. rewrite Hc, Htc. simpl.
    rewrite Hg, Hdir, Hcast. simpl. rewrite Hta, Hpid, Hp, Hco, Hy.
    unfold field.
    destruct (assoc "title" kv), (assoc "vote_average" kv),
             (assoc "release_date" kv); reflexivity.
  - simpl. repeat split; reflexivity.
Qed.

Example enrich_without_lead :
  enrich (env_lookup_fails (named "Second")) (PDict [("id", PInt 1)]) 1%nat
  = (Ok (Some film_without_lead), 6%nat).
Proof. reflexivity. Qed.

(** C8: at a film whose detail and credit fetches succeed and whose
    person lookup is answered HTTP 429 with an HTTP-date Retry-After,
    the lookup raises ValueError instead of returning None, the handler
    around the film catches it, and the film is left out of the page. *)
Theorem enrich_lookup_raises_film_dropped :
  let e := env_lead_throttled in
  get_json e (MovieDetails (PInt 1)) default_max_retries 1%nat
    = (Ok (PDict [("title", PStr "B")]), 2%nat) /\
  get_json e (MovieCredits (PInt 1)) default_max_retries 2%nat
    = (Ok (PDict [("cast", PList [PDict [("id", PInt 10); ("name", PStr "Lead")];
                                  named "Second"])]), 3%nat) /\
  get_person_details e (PInt 10) 3%nat = (Raise ValueError, 4%nat) /\
  enrich e (PDict [("id", PInt 1)]) 1%nat = (Raise ValueError, 4%nat) /\
  process_page e 1 0%nat = (Ok [], 4%nat).
Proof. repeat split; reflexivity. Qed.

(** ** save_to_mongodb *)

Lemma float_eqb_sym a b : float_eqb a b = float_eqb b a.
Proof.
  destruct a as [|n1|n1 m1 e1], b as [|n2|n2 m2 e2]; simpl; try reflexivity.
  - destruct n1, n2; reflexivity.
  - rewrite (Z.min_comm e1 e2). apply Z.eqb_sym.
Qed.

Lemma py_eq_sym a b : py_eq a b = py_eq b a.
Proof.
  destruct a, b; cbv [py_eq as_number]; try reflexivity;
    try apply float_eqb_sym; apply String.eqb_sym.
Qed.

Lemma title_in_false t docs :
  title_in t docs = false <-> forall d, In d docs -> py_eq (titulo d) t = false.
Proof.
  unfold title_in. induction docs as [|d rest IH]; simpl.
  - split; [intros _ d [] | reflexivity].
  - rewrite orb_false_iff, IH. split.
    + intros [Hd Hr] x [<-|Hx]; auto.
    + intros H. split; [apply H; auto | intros x Hx; apply H; auto].
Qed.

Lemma title_in_true t docs :
  title_in t docs = true <-> exists d, In d docs /\ py_eq (titulo d) t = true.
Proof. unfold title_in. apply existsb_exists. Qed.

Lemma title_in_titles t docs :
  existsb (fun member => py_eq member t) (map titulo docs) = title_in t docs.
Proof.
  unfold title_in. induction docs as [|d rest IH]; simpl; [reflexivity|].
  rewrite IH. reflexivity.
Qed.

Lemma distinct_titles_app a b :
  distinct_titles (a ++ b) = true <->
  distinct_titles a = true /\ distinct_titles b = true /\
  forall x, In x a -> title_in (titulo x) b = false.
Proof.
  induction a as [|h a IH]; simpl.
  - split; [intros H; repeat split; auto; intros x [] | tauto].
  - rewrite !andb_true_iff, !negb_true_iff, IH.
    unfold title_in at 1 3. rewrite existsb_app, orb_false_iff.
    fold (title_in (titulo h) a) (title_in (titulo h) b). split.
    + intros [[Ha Hb] [Hda [Hdb Hx]]]. repeat split; auto.
      intros x [<-|Hin]; auto.
    + intros [[Ha Hda] [Hdb Hx]]. repeat split; auto.
Qed.

Lemma distinct_titles_filter p docs :
  distinct_titles docs = true -> distinct_titles (filter p docs) = true.
Proof.
  induction docs as [|d rest IH]; simpl; [auto|].
  rewrite andb_true_iff, negb_true_iff. intros [Hd Hr].
  destruct (p d); simpl; [|auto].
  rewrite andb_true_iff, negb_true_iff. split; [|auto].
  apply title_in_false. intros x Hx. apply filter_In in Hx.
  rewrite title_in_false in Hd. apply Hd. tauto.
Qed.

Lemma distinct_titles_firstn k : forall docs,
  distinct_titles docs = true -> distinct_titles (firstn k docs) = true.
Proof.
  induction k as [|k IH]; intros [|d rest]; simpl; auto.
  rewrite !andb_true_iff, !negb_true_iff. intros [Hd Hr]. split; [|auto].
  apply title_in_false. intros x Hx.
  rewrite title_in_false in Hd. apply Hd.
  apply (In_nth_error) in Hx. destruct Hx as [i Hi].
  apply nth_error_In with (n := i).
  destruct (Nat.lt_ge_cases i k).
  - rewrite nth_error_firstn in Hi.
    destruct (Nat.ltb_spec i k); [exact Hi|lia].
  - rewrite nth_error_firstn in Hi.
    destruct (Nat.ltb_spec i k); [lia|discriminate].
Qed.

(** The list comprehension keeps, in order, the films whose title is not
    among the existing ones. *)
Lemma novos_fresh docs : forall movies l,
  novos (map titulo docs) movies = Ok l -> l = fresh docs movies.
Proof.
  induction movies as [|f rest IH]; intros l H; simpl in H.
  - inversion H. reflexivity.
  - apply bindR_ok in H. destruct H as (known & Hk & H).
    apply bindR_ok in H. destruct H as (others & Ho & H).
    inversion H; subst l. rewrite (IH others Ho).
    unfold py_in in Hk. destruct (py_hashable (titulo f)); [|discriminate].
    inversion Hk; subst known. rewrite title_in_titles.
    simpl. destruct (title_in (titulo f) docs); reflexivity.
Qed.

Lemma novos_hashable titles : forall movies,
  forallb (fun f => py_hashable (titulo f)) movies = true ->
  exists l, novos titles movies = Ok l.
Proof.
  induction movies as [|f rest IH]; simpl; intros H.
  - eauto.
  - apply andb_true_iff in H. destruct H as [Hf Hr].
    destruct (IH Hr) as [l Hl]. unfold py_in. rewrite Hf, Hl. simpl. eauto.
Qed.

Lemma save_body_effect f movies w :
  exists k,
    let added := firstn k (fresh (store w) movies) in
    let w' := snd (save_body f movies w) in
    store w' = store w ++ added /\
    (journal w' = journal w /\ added = [] \/
     journal w' = journal w ++ [Inserted added]) /\
    page_txt w' = page_txt w /\ clock w' = clock w /\ saves w' = saves w.
Proof.
  assert (Hq : exists k,
            let added := firstn k (fresh (store w) movies) in
            store w = store w ++ added /\
            (journal w = journal w /\ added = [] \/
             journal w = journal w ++ [Inserted added]) /\
            page_txt w = page_txt w /\ clock w = clock w /\ saves w = saves w).
  { exists 0%nat. simpl. rewrite List.app_nil_r. auto 6. }
  unfold save_body, bind, connect_to_mongodb, find_titles, lift, ret, py_set.
  destruct f; try exact Hq;
    (destruct (forallb py_hashable (map titulo (store w))); [|exact Hq]);
    (destruct (novos (map titulo (store w)) movies) as [l|x] eqn:Hn; [|exact Hq]);
    apply novos_fresh in Hn; subst l;
    (destruct (fresh (store w) movies) as [|a l] eqn:Hfr; [exact Hq|]).
  - exists (List.length (a :: l)).
    rewrite firstn_all. simpl. auto 6.
  - exists written. simpl. auto 6.
Qed.

(** What a call leaves behind: some prefix of the fresh films is
    appended to the collection, by at most one write, and nothing else
    changes. *)
Lemma save_to_mongodb_effect e movies w :
  exists k,
    let added := firstn k (fresh (store w) movies) in
    let w' := snd (save_to_mongodb e movies w) in
    store w' = store w ++ added /\
    (journal w' = journal w /\ added = [] \/
     journal w' = journal w ++ [Inserted added]) /\
    page_txt w' = page_txt w /\ clock w' = clock w.
Proof.
  unfold save_to_mongodb.
  destruct movies as [|m ms].
  { exists 0%nat. simpl. rewrite List.app_nil_r. auto. }
  destruct (save_body_effect (mongo_fault_at e (saves w)) (m :: ms) (begin_save w))
    as (k & Hs & Hj & Hp & Hc & _).
  exists k.
  destruct (save_body (mongo_fault_at e (saves w)) (m :: ms) (begin_save w))
    as [[n|x] w']; simpl in *; auto.
Qed.

Lemma In_firstn {A} (k : nat) (l : list A) x : In x (firstn k l) -> In x l.
Proof.
  intros H. rewrite <- (firstn_skipn k l). apply in_or_app. auto.
Qed.

Lemma fresh_In docs movies f :
  In f (fresh docs movies) <-> In f movies /\ title_in (titulo f) docs = false.
Proof.
  unfold fresh. rewrite filter_In, negb_true_iff. tauto.
Qed.

(** C3: when no two documents of the collection have the same title and
    no two films of the batch have the same title, no two documents have
    the same title after the call, whatever MongoDB does during it. *)
Theorem save_to_mongodb_distinct_titles e movies w :
  distinct_titles (store w) = true ->
  distinct_titles movies = true ->
  distinct_titles (store (snd (save_to_mongodb e movies w))) = true.
Proof.
  intros Hs Hm.
  destruct (save_to_mongodb_effect e movies w) as (k & Hst & _).
  simpl in Hst. rewrite Hst.
  apply distinct_titles_app. split; [exact Hs|]. split.
  - apply distinct_titles_firstn. apply distinct_titles_filter. exact Hm.
  - intros x Hx. apply title_in_false. intros y Hy.
    apply In_firstn in Hy. apply fresh_In in Hy. destruct Hy as [_ Hy].
    rewrite title_in_false in Hy. rewrite py_eq_sym. apply Hy. exact Hx.
Qed.

Lemma save_to_mongodb_distinct_titles_witness :
  distinct_titles
    (store (snd (save_to_mongodb env_two_films
                   [film_titled "A" 2010; film_titled "X" 1954]
                   (add_docs [film_1] world0)))) = true.
Proof.
  apply (save_to_mongodb_distinct_titles env_two_films
           [film_titled "A" 2010; film_titled "X" 1954]
           (add_docs [film_1] world0));
    reflexivity.
Defined.

(** A batch with two films of one new title: both are inserted. *)
Lemma save_to_mongodb_homonyms :
  distinct_titles (store world0) = true /\
  save_to_mongodb env_two_films homonyms world0
  = (2, {| clock := 0; saves := 1; store := homonyms; page_txt := None;
           journal := [Inserted homonyms] |}) /\
  distinct_titles (store (snd (save_to_mongodb env_two_films homonyms world0)))
  = false.
Proof. repeat split; reflexivity. Qed.

Lemma count_title_app t a b :
  count_title t (a ++ b) = (count_title t a + count_title t b)%nat.
Proof. unfold count_title. rewrite filter_app, length_app. reflexivity. Qed.

Lemma count_title_zero t docs :
  count_title t docs = 0%nat <-> title_in t docs = false.
Proof.
  unfold count_title, title_in. induction docs as [|d rest IH]; simpl.
  - tauto.
  - destruct (py_eq (titulo d) t); simpl.
    + split; [lia | discriminate].
    + exact IH.
Qed.

Lemma count_title_filter t p docs :
  (count_title t (filter p docs) <= count_title t docs)%nat.
Proof.
  unfold count_title. induction docs as [|d rest IH]; simpl; [lia|].
  destruct (p d), (py_eq (titulo d) t) eqn:E; simpl; try rewrite E; simpl; lia.
Qed.

(** In a batch without repeated titles a title that equals itself is
    there exactly once. *)
Lemma count_title_distinct : forall movies f,
  distinct_titles movies = true ->
  In f movies ->
  py_eq (titulo f) (titulo f) = true ->
  count_title (titulo f) movies = 1%nat.
Proof.
  induction movies as [|h rest IH]; intros f Hd Hin Hrefl; [destruct Hin|].
  simpl in Hd. apply andb_true_iff in Hd. destruct Hd as [Hh Hr].
  apply negb_true_iff in Hh.
  change (h :: rest) with ([h] ++ rest). rewrite count_title_app.
  destruct Hin as [->|Hin].
  - apply count_title_zero in Hh. rewrite Hh.
    unfold count_title. simpl. rewrite Hrefl. reflexivity.
  - rewrite (IH f Hr Hin Hrefl).
    rewrite title_in_false in Hh. specialize (Hh f Hin).
    rewrite py_eq_sym in Hh.
    unfold count_title. simpl. rewrite Hh. reflexivity.
Qed.

(** Two films of such a batch with equal titles are one film. *)
Lemma distinct_titles_inj : forall movies f g,
  distinct_titles movies = true ->
  In f movies -> In g movies ->
  py_eq (titulo g) (titulo f) = true -> g = f.
Proof.
  induction movies as [|h rest IH]; intros f g Hd Hf Hg Heq; [destruct Hf|].
  simpl in Hd. apply andb_true_iff in Hd. destruct Hd as [Hh Hr].
  apply negb_true_iff in Hh. rewrite title_in_false in Hh.
  destruct Hf as [<-|Hf], Hg as [<-|Hg].
  - reflexivity.
  - rewrite (Hh g Hg) in Heq. discriminate.
  - rewrite py_eq_sym, (Hh f Hf) in Heq. discriminate.
  - apply (IH f g); assumption.
Qed.

Lemma save_to_mongodb_count e movies w :
  fst (save_to_mongodb e movies w) = 0 \/
  fst (save_to_mongodb e movies w)
  = Z.of_nat (List.length (fresh (store w) movies)).
Proof.
  unfold save_to_mongodb. destruct movies as [|m ms]; [left; reflexivity|].
  remember (m :: ms) as movies. clear Heqmovies.
  destruct (save_body (mongo_fault_at e (saves w)) movies (begin_save w))
    as [[n|x] w'] eqn:Hb; simpl; [|left; reflexivity].
  right. unfold save_body in Hb.
  step Hb u s1 H1. step Hb titles s2 H2. step Hb tset s3 H3. pure H3.
  step Hb l s4 H4. pure H4. step Hb u2 s5 H5.
  apply ret_ok in Hb. destruct Hb as [-> _].
  unfold find_titles in H2.
  destruct (mongo_fault_at e (saves w)); inversion H2; subst;
    unfold py_set in H3;
    (destruct (forallb py_hashable (map titulo (store s2))); [|discriminate]);
    inversion H3; subst;
    apply novos_fresh in H4; subst;
    unfold connect_to_mongodb in H1;
    first [ apply ret_ok in H1; destruct H1 as [_ ->]; reflexivity
          | apply lift_ok in H1; destruct H1; discriminate ].
Qed.

(** Without a fault, and with titles that can be hashed, the call
    appends all the fresh films. *)
Lemma save_to_mongodb_no_fault e movies w :
  mongo_fault_at e (saves w) = NoFault ->
  forallb py_hashable (map titulo (store w)) = true ->
  forallb (fun f => py_hashable (titulo f)) movies = true ->
  fst (save_to_mongodb e movies w) = Z.of_nat (List.length (fresh (store w) movies)) /\
  store (snd (save_to_mongodb e movies w)) = store w ++ fresh (store w) movies.
Proof.
  intros Hf Hs Hm. unfold save_to_mongodb.
  destruct movies as [|m ms]; [simpl; rewrite List.app_nil_r; auto|].
  remember (m :: ms) as movies. clear Heqmovies.
  rewrite Hf. unfold save_body, bind, connect_to_mongodb, find_titles, lift, ret, py_set.
  simpl store. rewrite Hs.
  destruct (novos_hashable (map titulo (store w)) movies Hm) as [l Hl].
  rewrite Hl. apply novos_fresh in Hl. subst l.
  destruct (fresh (store w) movies) as [|a l] eqn:Hfr; simpl.
  - rewrite List.app_nil_r. auto.
  - auto.
Qed.

Lemma fresh_nil docs movies :
  (forall f, In f movies -> title_in (titulo f) docs = true) ->
  fresh docs movies = [].
Proof.
  unfold fresh. induction movies as [|f rest IH]; intros H; simpl; [reflexivity|].
  rewrite (H f (or_introl eq_refl)). simpl. apply IH.
  intros g Hg. apply H. right. exact Hg.
Qed.

Lemma title_in_app t a b : title_in t (a ++ b) = title_in t a || title_in t b.
Proof. unfold title_in. apply existsb_app. Qed.

(** C2: when the first call meets no MongoDB failure and every title,
    in the collection and in the batch, can be hashed and the batch
    titles equal themselves, a second call with the same batch inserts
    0 films and leaves the collection as it is, and every title of the
    batch is in the collection at least once; it is there exactly once
    when no two films of the batch have the same title and it was there
    at most once before the first call. *)
Theorem save_to_mongodb_twice e movies w :
  mongo_fault_at e (saves w) = NoFault ->
  forallb py_hashable (map titulo (store w)) = true ->
  forallb (fun f => sound_title (titulo f)) movies = true ->
  let w1 := snd (save_to_mongodb e movies w) in
  fst (save_to_mongodb e movies w1) = 0 /\
  store (snd (save_to_mongodb e movies w1)) = store w1 /\
  (forall f, In f movies -> (1 <= count_title (titulo f) (store w1))%nat) /\
  (distinct_titles movies = true ->
   forall f, In f movies ->
     (count_title (titulo f) (store w) <= 1)%nat ->
     count_title (titulo f) (store w1) = 1%nat).
Proof.
  intros Hf Hs Hm w1.
  assert (Hsound : forall f, In f movies ->
            py_hashable (titulo f) = true /\ py_eq (titulo f) (titulo f) = true).
  { intros f Hin. rewrite forallb_forall in Hm. specialize (Hm f Hin).
    apply andb_true_iff in Hm. exact Hm. }
  assert (Hh : forallb (fun f => py_hashable (titulo f)) movies = true).
  { apply forallb_forall. intros f Hin. apply Hsound. exact Hin. }
  destruct (save_to_mongodb_no_fault e movies w Hf Hs Hh) as [_ Hst].
  fold w1 in Hst.
  assert (Hall : forall f, In f movies -> title_in (titulo f) (store w1) = true).
  { intros f Hin. rewrite Hst, title_in_app.
    destruct (title_in (titulo f) (store w)) eqn:Hold; [reflexivity|].
    simpl. apply title_in_true. exists f. split; [|apply Hsound; exact Hin].
    apply fresh_In. auto. }
  assert (Hnil : fresh (store w1) movies = []) by (apply fresh_nil; exact Hall).
  split; [|split; [|split]].
  - destruct (save_to_mongodb_count e movies w1) as [H|H]; [exact H|].
    rewrite H, Hnil. reflexivity.
  - destruct (save_to_mongodb_effect e movies w1) as (k & H & _).
    simpl in H. rewrite H, Hnil, firstn_nil. apply List.app_nil_r.
  - intros f Hin. specialize (Hall f Hin).
    destruct (count_title (titulo f) (store w1)) eqn:Hc; [|lia].
    apply count_title_zero in Hc. congruence.
  - intros Hd f Hin Hold. rewrite Hst, count_title_app.
    destruct (title_in (titulo f) (store w)) eqn:Hin_store.
    + assert (Hone : count_title (titulo f) (store w) = 1%nat).
      { destruct (count_title (titulo f) (store w)) eqn:Hc; [|lia].
        apply count_title_zero in Hc. congruence. }
      assert (Hzero : count_title (titulo f) (fresh (store w) movies) = 0%nat).
      { apply count_title_zero. apply title_in_false. intros g Hg.
        apply fresh_In in Hg. destruct Hg as [Hg Hnot].
        destruct (py_eq (titulo g) (titulo f)) eqn:Heq; [|reflexivity].
        apply (distinct_titles_inj movies f g Hd Hin Hg) in Heq. subst g.
        congruence. }
      lia.
    + assert (Hzero : count_title (titulo f) (store w) = 0%nat)
        by (apply count_title_zero; exact Hin_store).
      assert (Hle : (count_title (titulo f) (fresh (store w) movies) <= 1)%nat).
      { unfold fresh. etransitivity; [apply count_title_filter|].
        rewrite (count_title_distinct movies f Hd Hin); [lia|].
        apply Hsound. exact Hin. }
      assert (Hge : (1 <= count_title (titulo f) (fresh (store w) movies))%nat).
      { destruct (count_title (titulo f) (fresh (store w) movies)) eqn:Hc; [|lia].
        apply count_title_zero in Hc. rewrite title_in_false in Hc.
        assert (Hfr : In f (fresh (store w) movies)) by (apply fresh_In; auto).
        specialize (Hc f Hfr). destruct (Hsound f Hin). congruence. }
      lia.
Qed.

Lemma save_to_mongodb_twice_witness :
  let movies := [film_titled "A" 2010; film_titled "X" 1954] in
  let w1 := snd (save_to_mongodb env_two_films movies (add_docs [film_1] world0)) in
  fst (save_to_mongodb env_two_films movies w1) = 0 /\
  store (snd (save_to_mongodb env_two_films movies w1)) = store w1 /\
  (forall f, In f movies -> (1 <= count_title (titulo f) (store w1))%nat) /\
  (distinct_titles movies = true ->
   forall f, In f movies ->
     (count_title (titulo f) (store (add_docs [film_1] world0)) <= 1)%nat ->
     count_title (titulo f) (store w1) = 1%nat).
Proof.
  apply (save_to_mongodb_twice env_two_films
           [film_titled "A" 2010; film_titled "X" 1954]
           (add_docs [film_1] world0));
    reflexivity.
Defined.

(** Persisting two films of one title twice: the second call inserts 0,
    and the title is in the collection twice. *)
Lemma save_to_mongodb_twice_homonyms :
  let w1 := snd (save_to_mongodb env_two_films homonyms world0) in
  fst (save_to_mongodb env_two_films homonyms w1) = 0 /\
  count_title (PStr "X") (store (snd (save_to_mongodb env_two_films homonyms w1)))
  = 2%nat.
Proof. split; reflexivity. Qed.

(** ** main: one page *)

(** Whatever happens to the page, the round ends by writing the next
    page number to page.txt. *)
Lemma main_page_page_txt e page st :
  page_txt (fst (main_page e page st)) = Some (py_str (page + 1)).
Proof.
  unfold main_page. destruct st as [w total].
  destruct (process_with_retries e page 3 (clock w)) as [page_movies c].
  destruct page_movies as [|m ms]; [reflexivity|].
  destruct (save_to_mongodb e (m :: ms) (set_clock c w)). reflexivity.
Qed.

(** C1: in every round of the page loop page.txt is set to page+1 as the
    last durable write of the round, after the write to the collection
    if there was one, whether or not the page was fetched or stored. *)
Theorem main_page_checkpoint e page w total :
  let w' := fst (main_page e page (w, total)) in
  let text := py_str (page + 1) in
  page_txt w' = Some text /\
  exists added,
    store w' = store w ++ added /\
    (journal w' = journal w ++ [Checkpoint text] /\ added = [] \/
     journal w' = journal w ++ [Inserted added; Checkpoint text]).
Proof.
  unfold main_page.
  destruct (process_with_retries e page 3 (clock w)) as [page_movies c].
  destruct page_movies as [|m ms].
  - simpl. split; [reflexivity|]. exists []. rewrite List.app_nil_r. auto.
  - destruct (save_to_mongodb_effect e (m :: ms) (set_clock c w))
      as (k & Hs & Hj & _).
    destruct (save_to_mongodb e (m :: ms) (set_clock c w)) as [n w2].
    simpl in *. split; [reflexivity|].
    exists (firstn k (fresh (store w) (m :: ms))). split; [exact Hs|].
    destruct Hj as [[Hj Hnil]|Hj]; rewrite Hj.
    + left. auto.
    + right. rewrite <- app_assoc. reflexivity.
Qed.

(** Every attempt to process page 7 raises; the round still writes "8"
    to page.txt, and nothing to the collection. *)
Lemma main_page_all_attempts_fail :
  fst (process_page env_throttled 7 0%nat) = Raise ValueError /\
  fst (process_page env_throttled 7 1%nat) = Raise ValueError /\
  fst (process_page env_throttled 7 2%nat) = Raise ValueError /\
  main_page env_throttled 7 (world0, 0)
  = ({| clock := 3; saves := 0; store := []; page_txt := Some "8";
        journal := [Checkpoint "8"] |}, 0).
Proof. repeat split; reflexivity. Qed.

(** The page is fetched but MongoDB is down: nothing is stored, and the
    round still writes "8" to page.txt. *)
Lemma main_page_store_down :
  process_page env_mongo_down 7 0%nat = (Ok [film_1], 7%nat) /\
  main_page env_mongo_down 7 (world0, 0)
  = ({| clock := 7; saves := 1; store := []; page_txt := Some "8";
        journal := [Checkpoint "8"] |}, 0).
Proof. split; reflexivity. Qed.

(** ** The checkpoint text *)

Lemma digits_value_digit c k acc b rest :
  digit_of c = Some k ->
  digits_value acc b (c :: rest) = digits_value (10 * acc + k) true rest.
Proof. intros H. simpl. rewrite H. reflexivity. Qed.

Ltac next_digit IH :=
  unfold uint_chars;
  cbn [NilEmpty.string_of_uint list_ascii_of_string Pos.of_uint_acc Pos.of_uint];
  erewrite digits_value_digit by reflexivity;
  match goal with
  | |- context [10 * _ + ?k] => let v := eval vm_compute in k in change k with v
  end;
  match goal with
  | |- digits_value ?a true _ = Some (Z.pos (Pos.of_uint_acc ?d ?acc')) =>
      replace a with (Z.pos acc') by lia;
      apply (IH acc' true); left; reflexivity
  | |- digits_value ?a true _ = Some (Z.of_N (Pos.of_uint ?d)) =>
      replace a with 0 by lia;
      apply (IH true); left; reflexivity
  end.

Lemma digits_value_acc : forall d acc b,
  b = true \/ d <> Decimal.Nil ->
  digits_value (Z.pos acc) b (uint_chars d) = Some (Z.pos (Pos.of_uint_acc d acc)).
Proof.
  induction d; intros acc b Hb; try next_digit IHd.
  destruct Hb as [->|Hb]; [reflexivity | congruence].
Qed.

Lemma digits_value_uint : forall d b,
  b = true \/ d <> Decimal.Nil ->
  digits_value 0 b (uint_chars d) = Some (Z.of_N (Pos.of_uint d)).
Proof.
  induction d; intros b Hb; try next_digit IHd;
    try (unfold uint_chars;
         cbn [NilEmpty.string_of_uint list_ascii_of_string Pos.of_uint];
         erewrite digits_value_digit by reflexivity;
         apply (digits_value_acc d _ true); left; reflexivity).
  destruct Hb as [->|Hb]; [reflexivity | congruence].
Qed.

Lemma uint_chars_no_space d : Forall (fun c => is_space c = false) (uint_chars d).
Proof.
  unfold uint_chars. induction d; simpl; constructor; auto.
Qed.

Lemma lstrip_no_space l :
  Forall (fun c => is_space c = false) l -> lstrip l = l.
Proof.
  intros H. destruct H as [|c l Hc Hl]; simpl; [reflexivity|].
  rewrite Hc. reflexivity.
Qed.

Lemma strip_no_space l :
  Forall (fun c => is_space c = false) l -> strip l = l.
Proof.
  intros H. unfold strip. rewrite (lstrip_no_space l H).
  rewrite lstrip_no_space; [apply rev_involutive|].
  apply Forall_rev. exact H.
Qed.

Lemma py_str_chars z :
  list_ascii_of_string (py_str z) =
  match z with
  | Z0 => ["0"%char]
  | Zpos p => uint_chars (Pos.to_uint p)
  | Zneg p => "-"%char :: uint_chars (Pos.to_uint p)
  end.
Proof.
  unfold py_str, uint_chars.
  destruct z as [|p|p]; simpl; try reflexivity;
    pose proof (DecimalPos.Unsigned.to_uint_nonnil p) as Hn;
    unfold NilZero.string_of_uint;
    destruct (Pos.to_uint p); try congruence; reflexivity.
Qed.

Lemma py_str_no_space z :
  Forall (fun c => is_space c = false) (list_ascii_of_string (py_str z)).
Proof.
  rewrite py_str_chars. destruct z as [|p|p].
  - repeat constructor.
  - apply uint_chars_no_space.
  - constructor; [reflexivity | apply uint_chars_no_space].
Qed.

Lemma py_strip_py_str z : py_strip (py_str z) = py_str z.
Proof.
  unfold py_strip. rewrite strip_no_space by apply py_str_no_space.
  apply string_of_list_ascii_of_string.
Qed.

Lemma is_int_space_is_space c : is_space c = false -> is_int_space c = false.
Proof.
  unfold is_space, is_int_space. intros H.
  destruct (nat_of_ascii c) as [|n] eqn:E; [reflexivity|].
  do 160 (destruct n as [|n]; [first [reflexivity | discriminate H]|]).
  reflexivity.
Qed.

Lemma int_lstrip_no_space l :
  Forall (fun c => is_space c = false) l -> int_lstrip l = l.
Proof.
  intros H. destruct H as [|c l Hc Hl]; simpl; [reflexivity|].
  rewrite (is_int_space_is_space c Hc). reflexivity.
Qed.

Lemma int_strip_no_space l :
  Forall (fun c => is_space c = false) l -> int_strip l = l.
Proof.
  intros H. unfold int_strip. rewrite (int_lstrip_no_space l H).
  rewrite int_lstrip_no_space; [apply rev_involutive|].
  apply Forall_rev. exact H.
Qed.

(** [int(str(z)) == z] *)
Lemma int_of_string_py_str z : int_of_string (py_str z) = Ok z.
Proof.
  unfold int_of_string.
  rewrite int_strip_no_space by apply py_str_no_space.
  rewrite py_str_chars. destruct z as [|p|p].
  - reflexivity.
  - pose proof (DecimalPos.Unsigned.to_uint_nonnil p) as Hn.
    pose proof (DecimalPos.Unsigned.of_to p) as Hp.
    pose proof (digits_value_uint (Pos.to_uint p) false (or_intror Hn)) as Hd.
    rewrite Hp in Hd.
    destruct (Pos.to_uint p); try congruence;
      unfold uint_chars in *; simpl in *; rewrite Hd; reflexivity.
  - pose proof (DecimalPos.Unsigned.to_uint_nonnil p) as Hn.
    pose proof (DecimalPos.Unsigned.of_to p) as Hp.
    pose proof (digits_value_uint (Pos.to_uint p) false (or_intror Hn)) as Hd.
    rewrite Hp in Hd. simpl. rewrite Hd. reflexivity.
Qed.


(** ** main: the loop over the pages *)

Lemma py_range_length a b : List.length (py_range a b) = Z.to_nat (b - a).
Proof. unfold py_range. rewrite length_map, length_seq. reflexivity. Qed.

Lemma py_range_succ P n :
  py_range P (P + Z.of_nat (S n)) = py_range P (P + Z.of_nat n) ++ [P + Z.of_nat n].
Proof.
  unfold py_range.
  replace (Z.to_nat (P + Z.of_nat (S n) - P)) with (S n) by lia.
  replace (Z.to_nat (P + Z.of_nat n - P)) with n by lia.
  rewrite seq_S, map_app. reflexivity.
Qed.

(** The first [n] pages of a run are the pages [P .. P+n-1]. *)
Lemma py_range_firstn P b n :
  P + Z.of_nat n <= b ->
  firstn n (py_range P b) = py_range P (P + Z.of_nat n).
Proof.
  intros H. unfold py_range.
  replace (Z.to_nat (P + Z.of_nat n - P)) with n by lia.
  rewrite firstn_map. f_equal.
  replace (Z.to_nat (b - P)) with (n + (Z.to_nat (b - P) - n))%nat by lia.
  rewrite seq_app, firstn_app, length_seq, Nat.sub_diag. simpl.
  rewrite List.app_nil_r. apply firstn_all2. rewrite length_seq. lia.
Qed.

(** The state of [main] after its first [n] rounds. *)
Lemma main_rounds e P (n : nat) st :
  P + Z.of_nat n <= END_PAGE + 1 ->
  run_pages e (firstn n (py_range P (END_PAGE + 1))) st
  = run_pages e (py_range P (P + Z.of_nat n)) st.
Proof. intros H. rewrite py_range_firstn by exact H. reflexivity. Qed.

Lemma run_pages_app e pages1 pages2 st :
  run_pages e (pages1 ++ pages2) st = run_pages e pages2 (run_pages e pages1 st).
Proof. unfold run_pages. apply fold_left_app. Qed.

Lemma load_start_page_again w P w0 :
  load_start_page w = (Ok P, w0) -> fst (load_start_page w0) = Ok P.
Proof.
  unfold load_start_page. destruct (page_txt w) as [text|] eqn:Ht; intros H.
  - inversion H; subst w0. rewrite Ht. simpl. congruence.
  - inversion H; subst. reflexivity.
Qed.

Lemma run_pages_page_txt e P (n : nat) st :
  page_txt (fst (run_pages e (py_range P (P + Z.of_nat (S n))) st))
  = Some (py_str (P + Z.of_nat (S n))).
Proof.
  rewrite py_range_succ, run_pages_app.
  change (run_pages e [P + Z.of_nat n] ?s) with (main_page e (P + Z.of_nat n) s).
  rewrite main_page_page_txt. do 2 f_equal. lia.
Qed.

Lemma load_page_txt w z :
  page_txt w = Some (py_str z) -> fst (load_start_page w) = Ok z.
Proof.
  intros H. unfold load_start_page. rewrite H. cbn [fst py_int].
  rewrite py_strip_py_str. apply int_of_string_py_str.
Qed.

(** C5: when the run starts at the page P read from page.txt, then after
    N rounds of the page loop, for the pages P .. P+N-1, page.txt reads
    P+N. *)
Theorem checkpoint_after_pages e w P w0 (N : nat) total :
  load_start_page w = (Ok P, w0) ->
  fst (load_start_page
         (fst (run_pages e (py_range P (P + Z.of_nat N)) (w0, total))))
  = Ok (P + Z.of_nat N).
Proof.
  intros Hload. destruct N as [|n].
  - replace (P + Z.of_nat 0) with P by lia.
    unfold py_range. rewrite Z.sub_diag. simpl.
    apply (load_start_page_again w). exact Hload.
  - apply load_page_txt. apply run_pages_page_txt.
Qed.

Lemma checkpoint_after_pages_witness :
  fst (load_start_page
         (fst (run_pages env_two_films (py_range 1 (1 + Z.of_nat 2))
                 (write_page_txt (py_str 1) world0, 0))))
  = Ok (1 + Z.of_nat 2).
Proof.
  apply (checkpoint_after_pages env_two_films world0 1
           (write_page_txt (py_str 1) world0) 2 0).
  reflexivity.
Defined.

(** A run that starts within the range ends with page.txt at
    END_PAGE + 1. *)
Lemma main_final_checkpoint e P w :
  P <= END_PAGE ->
  fst (load_start_page (fst (main e P w))) = Ok (END_PAGE + 1).
Proof.
  intros Hle. unfold main. apply load_page_txt.
  pose proof (run_pages_page_txt e P (Z.to_nat (END_PAGE - P)) (w, 0)) as H.
  replace (P + Z.of_nat (S (Z.to_nat (END_PAGE - P)))) with (END_PAGE + 1) in H by lia.
  exact H.
Qed.

(** * Further properties *)

(** ** get_json: the attempt budget *)

Lemma get_json_loop_clock e url : forall n c,
  (c <= snd (get_json_loop e url n c) <= c + n)%nat.
Proof.
  induction n as [|n IH]; intros c; [simpl; lia|].
  rewrite get_json_loop_step. specialize (IH (S c)).
  destruct (fst (attempt_body e url c)) as [[v|]|x]; simpl; try lia.
  destruct (is_request_exception x); simpl; lia.
Qed.

(** X1: a call of get_json issues at most max_retries requests
    (none when max_retries is 0 or negative), whatever the server
    answers and whether the call returns or raises. *)
Theorem get_json_request_budget e url max_retries c :
  (c <= snd (get_json e url max_retries c) <= c + Z.to_nat max_retries)%nat.
Proof. unfold get_json. apply get_json_loop_clock. Qed.

Lemma attempt_body_200 e url c r v :
  server e c url = Responded r ->
  status_code r = 200 ->
  json_body r = Some v ->
  fst (attempt_body e url c) = Ok (Some v).
Proof.
  intros Hsrv Hst Hb. unfold attempt_body, bind, requests_get, lift.
  rewrite Hsrv. simpl. rewrite Hst. simpl.
  unfold response_json. rewrite Hb. reflexivity.
Qed.

(** X2: when the attempts before attempt k+1 all fail in a way that is
    retried, and attempt k+1, still within the budget, is answered with
    HTTP 200 and a JSON body, get_json returns that body after exactly
    k+1 requests. *)
Theorem get_json_first_success e url max_retries c k r v :
  (k < Z.to_nat max_retries)%nat ->
  (forall i, (i < k)%nat ->
     retriable e (c + i)%nat (server e (c + i)%nat url) = true) ->
  server e (c + k)%nat url = Responded r ->
  status_code r = 200 ->
  json_body r = Some v ->
  get_json e url max_retries c = (Ok v, S (c + k)%nat).
Proof.
  intros Hk Hretry Hsrv Hst Hbody. unfold get_json.
  apply get_json_loop_success; [| |exact Hk].
  - intros i Hi. rewrite retried_retriable. apply Hretry. exact Hi.
  - apply (attempt_body_200 e url _ r v Hsrv Hst Hbody).
Qed.

Lemma get_json_first_success_witness :
  get_json env_third_attempt (TopRated 1) default_max_retries 0%nat
  = (Ok (PDict [("results", PList [])]), 3%nat).
Proof.
  apply (get_json_first_success env_third_attempt (TopRated 1) default_max_retries
           0%nat 2%nat
           {| status_code := 200; retry_after := None;
              json_body := Some (PDict [("results", PList [])]) |}).
  - vm_compute. lia.
  - intros [|[|i]] Hi; [reflexivity | reflexivity | lia].
  - reflexivity.
  - reflexivity.
  - reflexivity.
Defined.

(** X3: when every attempt of the budget fails in a way that is retried,
    get_json returns None after exactly max_retries requests. *)
Theorem get_json_budget_exhausted e url max_retries c :
  (forall i, (i < Z.to_nat max_retries)%nat ->
     retriable e (c + i)%nat (server e (c + i)%nat url) = true) ->
  get_json e url max_retries c = (Ok PNone, (c + Z.to_nat max_retries)%nat).
Proof.
  intros H. unfold get_json. apply get_json_loop_exhausted.
  intros i Hi. rewrite retried_retriable. apply H. exact Hi.
Qed.

Lemma get_json_budget_exhausted_witness :
  get_json env_unavailable (TopRated 1) default_max_retries 0%nat
  = (Ok PNone, (0 + Z.to_nat default_max_retries)%nat).
Proof.
  apply (get_json_budget_exhausted env_unavailable (TopRated 1) default_max_retries 0%nat).
  intros i _. reflexivity.
Defined.








(** X6: an HTTP 429 whose Retry-After reads as a negative integer makes
    get_json raise after that single request, whatever attempts remain:
    time.sleep rejects the negative length with a ValueError, and with
    an OverflowError when it is below -9223372036. *)
Theorem get_json_negative_retry_after e url c r secs max_retries :
  server e c url = Responded r ->
  status_code r = 429 ->
  retry_after_seconds r = Ok secs ->
  secs < 0 ->
  0 < max_retries ->
  get_json e url max_retries c
  = (Raise (if secs <? -9223372036 then OverflowError else ValueError), S c).
Proof.
  intros Hsrv Hst Hra Hneg Hpos. unfold get_json.
  destruct (Z.to_nat max_retries) as [|k] eqn:Hk; [lia|].
  simpl. unfold attempt_body, bind, requests_get, lift, sleep.
  rewrite Hsrv, Hst. simpl. rewrite Hra. unfold time_sleep.
  destruct (Z.ltb_spec secs (-9223372036)); simpl; [reflexivity|].
  destruct (Z.ltb_spec 9223372036 secs); [lia|]. simpl.
  destruct (Z.ltb_spec secs 0); [reflexivity|lia].
Qed.

Lemma get_json_negative_retry_after_witness :
  get_json env_throttled_negative (TopRated 1) default_max_retries 0%nat
  = (Raise (if -1 <? -9223372036 then OverflowError else ValueError), 1%nat).
Proof.
  apply (get_json_negative_retry_after env_throttled_negative (TopRated 1) 0%nat
           {| status_code := 429; retry_after := Some "-1"; json_body := None |}
           (-1) default_max_retries);
    reflexivity.
Defined.

(** ** get_person_details *)

(** X7: in the profile of a lookup that succeeds, nome is the record's
    name (None when absent) and idade is the calendar year minus the
    integer read from the first four characters of the birthday; it is
    None when the birthday is absent, null or empty. *)
Theorem get_person_details_fields e person_id c p c' :
  get_person_details e person_id c = (Ok (Some p), c') ->
  exists d,
    get_json e (PersonDetails person_id) default_max_retries c = (Ok (PDict d), c') /\
    nome p = get_or_none d "name" /\
    match assoc "birthday" d with
    | Some b =>
        if py_truthy b
        then exists prefix y,
               py_slice b 0 4 = Ok prefix /\ py_int prefix = Ok y /\
               idade p = Some (year_at e c' - y)
        else idade p = None
    | None => idade p = None
    end.
Proof.
  unfold get_person_details. intros H.
  apply bind_ok in H. destruct H as (data & c1 & Hj & H).
  destruct (py_truthy data) eqn:Ht;
    [|apply ret_ok in H; destruct H; discriminate].
  inversion H as [[Hp Hc]]. subst c1.
  apply bindR_ok in Hp. destruct Hp as (n & Hn & Hp).
  apply bindR_ok in Hp. destruct Hp as (nac & Hnac & Hp).
  apply bindR_ok in Hp. destruct Hp as (dn & Hdn & Hp).
  apply bindR_ok in Hp. destruct Hp as (age & Hage & Hp).
  inversion Hp; subst p; simpl.
  destruct data; simpl in Hn; try discriminate.
  exists d. split; [exact Hj|]. split.
  - unfold get_or_none. destruct (assoc "name" d); inversion Hn; reflexivity.
  - simpl in Hdn. destruct (assoc "birthday" d) as [b|]; inversion Hdn; subst dn.
    + destruct (py_truthy b).
      * apply bindR_ok in Hage. destruct Hage as (prefix & Hs & Hage).
        apply bindR_ok in Hage. destruct Hage as (y & Hy & Hage).
        inversion Hage. exists prefix, y. auto.
      * inversion Hage. reflexivity.
    + simpl in Hage. inversion Hage. reflexivity.
Qed.

Lemma get_person_details_fields_witness :
  exists d,
    get_json env_two_films (PersonDetails (PInt 10)) default_max_retries 0%nat
    = (Ok (PDict d), 1%nat) /\
    PStr "John Roe" = get_or_none d "name" /\
    match assoc "birthday" d with
    | Some b =>
        if py_truthy b
        then exists prefix y,
               py_slice b 0 4 = Ok prefix /\ py_int prefix = Ok y /\
               Some 50 = Some (year_at env_two_films 1%nat - y)
        else Some 50 = None
    | None => Some 50 = None
    end.
Proof.
  exact (get_person_details_fields env_two_films (PInt 10) 0%nat
           {| nome := PStr "John Roe"; idade := Some 50; nacionalidade := PNone |}
           1%nat eq_refl).
Defined.

(** X8: when the person record has a birthday that is not empty and
    whose first four characters int() rejects, the lookup raises that
    exception instead of returning a profile. *)
Theorem get_person_details_bad_birthday e person_id c d b x c' :
  get_json e (PersonDetails person_id) default_max_retries c = (Ok (PDict d), c') ->
  assoc "birthday" d = Some b ->
  py_truthy b = true ->
  (prefix <-? py_slice b 0 4 ;; py_int prefix) = Raise x ->
  get_person_details e person_id c = (Raise x, c').
Proof.
  intros Hj Hb Ht Hx. unfold get_person_details, bind. rewrite Hj.
  assert (Hd : py_truthy (PDict d) = true).
  { destruct d; [discriminate | reflexivity]. }
  rewrite Hd. simpl. rewrite Hb. simpl. rewrite Ht.
  destruct (assoc "name" d); simpl;
    destruct (assoc "place_of_birth" d); simpl;
    destruct (py_slice b 0 4) as [prefix|y]; simpl in *;
    try (rewrite Hx; reflexivity); inversion Hx; reflexivity.
Qed.

Lemma get_person_details_bad_birthday_witness :
  get_person_details
    (env_person (PDict [("name", PStr "Ann"); ("birthday", PStr "c. 1950")]))
    (PInt 10) 0%nat
  = (Raise ValueError, 1%nat).
Proof.
  apply (get_person_details_bad_birthday
           (env_person (PDict [("name", PStr "Ann"); ("birthday", PStr "c. 1950")]))
           (PInt 10) 0%nat
           [("name", PStr "Ann"); ("birthday", PStr "c. 1950")]
           (PStr "c. 1950") ValueError 1%nat);
    reflexivity.
Defined.

(** ** process_page: the fields of a record *)

(** X9: in every record the page processor appends, when the detail
    record's genre list is not empty the genre is the name of its first
    entry. *)
Theorem enrich_genero_first e movie c f c' :
  enrich e movie c = (Ok (Some f), c') ->
  exists movie_id details c1,
    py_getitem movie "id" = Ok movie_id /\
    get_json e (MovieDetails movie_id) default_max_retries c = (Ok details, c1) /\
    forall g rest,
      py_get details "genres" (PList []) = Ok (PList (g :: rest)) ->
      py_getitem g "name" = Ok (genero f).
Proof.
  intros H. apply enrich_inv in H.
  destruct H as (movie_id & details & c1 & credits & c2 & elenco & ator &
                 Hid & Hd & _ & _ & _ & Hg & _).
  exists movie_id, details, c1. repeat (split; [assumption|]).
  intros g rest Hgen. unfold genero_of in Hg. rewrite Hgen in Hg.
  simpl in Hg. exact Hg.
Qed.

Lemma enrich_genero_first_witness :
  exists movie_id details c1,
    py_getitem (PDict [("id", PInt 1)]) "id" = Ok movie_id /\
    get_json env_two_films (MovieDetails movie_id) default_max_retries 1%nat
    = (Ok details, c1) /\
    forall g rest,
      py_get details "genres" (PList []) = Ok (PList (g :: rest)) ->
      py_getitem g "name" = Ok (genero film_1).
Proof.
  exact (enrich_genero_first env_two_films (PDict [("id", PInt 1)]) 1%nat
           film_1 4%nat eq_refl).
Defined.

(** X10: in every record the page processor appends, when the cast
    list is not empty the primary actor is what get_person_details
    returns for the id of the first cast entry, looked up right after
    the credit fetch; a first entry that is falsy gives None without a
    lookup. *)
Theorem enrich_ator_principal e movie c f c' :
  enrich e movie c = (Ok (Some f), c') ->
  exists movie_id credits c1 c2,
    py_getitem movie "id" = Ok movie_id /\
    get_json e (MovieCredits movie_id) default_max_retries c1 = (Ok credits, c2) /\
    forall actor rest,
      py_get credits "cast" (PList []) = Ok (PList (actor :: rest)) ->
      if py_truthy actor
      then exists person_id,
             py_getitem actor "id" = Ok person_id /\
             get_person_details e person_id c2 = (Ok (atorPrincipal f), c')
      else atorPrincipal f = None /\ c' = c2.
Proof.
  intros H. apply enrich_inv in H.
  destruct H as (movie_id & details & c1 & credits & c2 & elenco & ator &
                 Hid & _ & _ & Hc & _ & _ & _ & He & Ha & Hp & _).
  exists movie_id, credits, c1, c2. repeat (split; [assumption|]).
  intros actor rest Hcast. rewrite Hcast in He. inversion He; subst elenco.
  simpl in Ha. inversion Ha; subst ator.
  destruct (py_truthy actor).
  - apply bind_ok in Hp. destruct Hp as (pid & s & Hpid & Hp).
    apply lift_ok in Hpid. destruct Hpid as [Hpid ->]. eauto.
  - apply ret_ok in Hp. destruct Hp as [Hp ->]. auto.
Qed.

Lemma enrich_ator_principal_witness :
  exists movie_id credits c1 c2,
    py_getitem (PDict [("id", PInt 1)]) "id" = Ok movie_id /\
    get_json env_two_films (MovieCredits movie_id) default_max_retries c1
    = (Ok credits, c2) /\
    forall actor rest,
      py_get credits "cast" (PList []) = Ok (PList (actor :: rest)) ->
      if py_truthy actor
      then exists person_id,
             py_getitem actor "id" = Ok person_id /\
             get_person_details env_two_films person_id c2
             = (Ok (atorPrincipal film_1), 4%nat)
      else atorPrincipal film_1 = None /\ 4%nat = c2.
Proof.
  exact (enrich_ator_principal env_two_films (PDict [("id", PInt 1)]) 1%nat
           film_1 4%nat eq_refl).
Defined.

(** X11: in every record the page processor appends, when the cast list
    is empty or the credits have no cast key, the primary actor is None,
    there are no supporting names and no request follows the credit
    fetch. *)
Theorem enrich_no_cast e movie c f c' :
  enrich e movie c = (Ok (Some f), c') ->
  exists movie_id credits c1 c2,
    py_getitem movie "id" = Ok movie_id /\
    get_json e (MovieCredits movie_id) default_max_retries c1 = (Ok credits, c2) /\
    (py_get credits "cast" (PList []) = Ok (PList []) ->
     atorPrincipal f = None /\ atoresCoadjuvantes f = [] /\ c' = c2).
Proof.
  intros H. apply enrich_inv in H.
  destruct H as (movie_id & details & c1 & credits & c2 & elenco & ator &
                 Hid & _ & _ & Hc & _ & _ & _ & He & Ha & Hp & Hco & _).
  exists movie_id, credits, c1, c2. repeat (split; [assumption|]).
  intros Hcast. rewrite Hcast in He. inversion He; subst elenco.
  simpl in Ha. inversion Ha; subst ator. simpl in Hp.
  apply ret_ok in Hp. destruct Hp as [Hp ->].
  simpl in Hco. inversion Hco. auto.
Qed.

Lemma enrich_no_cast_witness :
  exists movie_id credits c1 c2,
    py_getitem (PDict [("id", PInt 3)]) "id" = Ok movie_id /\
    get_json env_bare_film (MovieCredits movie_id) default_max_retries c1
    = (Ok credits, c2) /\
    (py_get credits "cast" (PList []) = Ok (PList []) ->
     atorPrincipal film_bare = None /\ atoresCoadjuvantes film_bare = [] /\
     3%nat = c2).
Proof.
  exact (enrich_no_cast env_bare_film (PDict [("id", PInt 3)]) 1%nat
           film_bare 3%nat eq_refl).
Defined.

(** X12: in every record the page processor appends, titulo, nota and
    dataLancamento are the detail record's title, vote_average and
    release_date (None when absent), and ano is the integer read from
    the first four characters of the release date, or None when the
    release date is absent, null or empty. *)
Theorem enrich_detail_fields e movie c f c' :
  enrich e movie c = (Ok (Some f), c') ->
  exists movie_id d c1,
    py_getitem movie "id" = Ok movie_id /\
    get_json e (MovieDetails movie_id) default_max_retries c = (Ok (PDict d), c1) /\
    titulo f = get_or_none d "title" /\
    nota f = get_or_none d "vote_average" /\
    dataLancamento f = get_or_none d "release_date" /\
    match assoc "release_date" d with
    | Some released =>
        if py_truthy released
        then exists prefix y,
               py_slice released 0 4 = Ok prefix /\ py_int prefix = Ok y /\
               ano f = Some y
        else ano f = None
    | None => ano f = None
    end.
Proof.
  intros H. apply enrich_inv in H.
  destruct H as (movie_id & details & c1 & credits & c2 & elenco & ator &
                 Hid & Hd & _ & _ & _ & Hg & _ & _ & _ & _ & _ & Ht & Hy & Hv & Hr).
  destruct (genero_of_dict _ _ Hg) as [d ->].
  exists movie_id, d, c1. repeat (split; [assumption|]).
  unfold get_or_none. simpl in Ht, Hv, Hr.
  split; [destruct (assoc "title" d); inversion Ht; reflexivity|].
  split; [destruct (assoc "vote_average" d); inversion Hv; reflexivity|].
  split; [destruct (assoc "release_date" d); inversion Hr; reflexivity|].
  unfold ano_of in Hy. simpl in Hy.
  destruct (assoc "release_date" d) as [released|]; simpl in Hy.
  - destruct (py_truthy released); simpl in Hy.
    + apply bindR_ok in Hy. destruct Hy as (prefix & Hs & Hy).
      apply bindR_ok in Hy. destruct Hy as (y & Hi & Hy).
      inversion Hy. exists prefix, y. auto.
    + inversion Hy. reflexivity.
  - inversion Hy. reflexivity.
Qed.

Lemma enrich_detail_fields_witness :
  exists movie_id d c1,
    py_getitem (PDict [("id", PInt 1)]) "id" = Ok movie_id /\
    get_json env_two_films (MovieDetails movie_id) default_max_retries 1%nat
    = (Ok (PDict d), c1) /\
    titulo film_1 = get_or_none d "title" /\
    nota film_1 = get_or_none d "vote_average" /\
    dataLancamento film_1 = get_or_none d "release_date" /\
    match assoc "release_date" d with
    | Some released =>
        if py_truthy released
        then exists prefix y,
               py_slice released 0 4 = Ok prefix /\ py_int prefix = Ok y /\
               ano film_1 = Some y
        else ano film_1 = None
    | None => ano film_1 = None
    end.
Proof.
  exact (enrich_detail_fields env_two_films (PDict [("id", PInt 1)]) 1%nat
           film_1 4%nat eq_refl).
Defined.

(** ** process_page: the page as a whole *)

Lemma within_ret k {A} (a : A) : requests_within k (ret a).
Proof. intros c. simpl. lia. Qed.

Lemma within_lift k {A} (r : result A) : requests_within k (lift r).
Proof. intros c. simpl. lia. Qed.

Lemma within_bind a b {A B} (m : net A) (f : A -> net B) :
  requests_within a m ->
  (forall x, requests_within b (f x)) ->
  requests_within (a + b) (bind m f).
Proof.
  intros Hm Hf c. unfold bind. specialize (Hm c).
  destruct (m c) as [[x|y] c1]; simpl in *; [|lia].
  specialize (Hf x c1). lia.
Qed.

Lemma within_get_json e url : requests_within 3 (get_json e url default_max_retries).
Proof. intros c. apply (get_json_loop_clock e url 3 c). Qed.

Lemma within_get_person_details e person_id :
  requests_within 3 (get_person_details e person_id).
Proof.
  unfold get_person_details. apply (within_bind 3 0); [apply within_get_json|].
  intros data. destruct (py_truthy data); [|apply within_ret].
  intros c. simpl. lia.
Qed.

Lemma within_enrich e movie : requests_within 9 (enrich e movie).
Proof.
  unfold enrich.
  apply (within_bind 0 9); [apply within_lift|]. intros movie_id.
  apply (within_bind 3 6); [apply within_get_json|]. intros details.
  destruct (py_truthy details); simpl; [|apply within_ret].
  apply (within_bind 3 3); [apply within_get_json|]. intros credits.
  destruct (py_truthy credits); simpl; [|apply within_ret].
  apply (within_bind 0 3); [apply within_lift|]. intros genre.
  apply (within_bind 0 3); [apply within_lift|]. intros director.
  apply (within_bind 0 3); [apply within_lift|]. intros elenco.
  apply (within_bind 0 3); [apply within_lift|]. intros ator.
  apply (within_bind 3 0).
  { destruct (py_truthy ator); [|apply within_ret].
    apply (within_bind 0 3); [apply within_lift|]. intros person_id.
    apply within_get_person_details. }
  intros apd.
  apply (within_bind 0 0); [apply within_lift|]. intros coadj.
  apply (within_bind 0 0); [apply within_lift|]. intros title.
  apply (within_bind 0 0); [apply within_lift|]. intros year.
  apply (within_bind 0 0); [apply within_lift|]. intros vote.
  apply (within_bind 0 0); [apply within_lift|]. intros released.
  apply within_ret.
Qed.

Lemma process_movies_clock e : forall movies acc c,
  (c <= snd (process_movies e movies acc c) <= c + 9 * List.length movies)%nat.
Proof.
  induction movies as [|movie rest IH]; intros acc c; simpl; [lia|].
  pose proof (within_enrich e movie c) as H.
  destruct (enrich e movie c) as [[[f|]|x] c1]; simpl in H;
    match goal with
    | |- context [process_movies e rest ?a c1] => specialize (IH a c1)
    end; lia.
Qed.

(** What the loop adds to the records collected so far. *)
Lemma process_movies_added e : forall movies acc c,
  exists added,
    fst (process_movies e movies acc c) = acc ++ added /\
    (List.length added <= List.length movies)%nat /\
    forall f, In f added ->
      exists movie c0 c1, In movie movies /\ enrich e movie c0 = (Ok (Some f), c1).
Proof.
  induction movies as [|movie rest IH]; intros acc c; simpl.
  - exists []. rewrite List.app_nil_r. split; [reflexivity|]. split; [simpl; lia|].
    intros f [].
  - destruct (enrich e movie c) as [[[f|]|x] c1] eqn:He.
    + destruct (IH (acc ++ [f]) c1) as (added & Hfst & Hlen & Hin).
      exists (f :: added). rewrite Hfst, <- app_assoc. split; [reflexivity|].
      split; [simpl; lia|].
      intros g [<-|Hg].
      * exists movie, c, c1. auto.
      * destruct (Hin g Hg) as (m & c0 & c2 & Hm & Hg'). exists m, c0, c2. auto.
    + destruct (IH acc c1) as (added & Hfst & Hlen & Hin).
      exists added. split; [exact Hfst|]. split; [lia|].
      intros g Hg. destruct (Hin g Hg) as (m & c0 & c2 & Hm & Hg').
      exists m, c0, c2. auto.
    + destruct (IH acc c1) as (added & Hfst & Hlen & Hin).
      exists added. split; [exact Hfst|]. split; [lia|].
      intros g Hg. destruct (Hin g Hg) as (m & c0 & c2 & Hm & Hg').
      exists m, c0, c2. auto.
Qed.

(** What a page that is returned went through. *)
Lemma process_page_inv e page c l c' :
  process_page e page c = (Ok l, c') ->
  (exists top, get_json e (TopRated page) default_max_retries c = (Ok top, c') /\
               py_truthy top = false /\ l = []) \/
  (exists top c1 res items,
     get_json e (TopRated page) default_max_retries c = (Ok top, c1) /\
     py_truthy top = true /\
     py_get top "results" (PList []) = Ok res /\
     py_iter res = Ok items /\
     process_movies e items [] c1 = (l, c')).
Proof.
  unfold process_page. intros H.
  apply bind_ok in H. destruct H as (top & c1 & Hj & H).
  destruct (py_truthy top) eqn:Ht; simpl in H.
  - right.
    apply bind_ok in H. destruct H as (res & s1 & Hres & H).
    apply lift_ok in Hres. destruct Hres as [Hres ->].
    apply bind_ok in H. destruct H as (items & s2 & Hit & H).
    apply lift_ok in Hit. destruct Hit as [Hit ->].
    exists top, c1, res, items. repeat (split; [assumption|]).
    destruct (process_movies e items [] c1) as [pm c2]. inversion H. reflexivity.
  - left. apply ret_ok in H. destruct H as [-> ->]. exists top. auto.
Qed.

(** X13: when the listing is fetched and its results are a list, the
    page processor returns, whatever happens to the single films: no
    exception raised for a film leaves process_page, and there is at
    most one record per listed film. *)
Theorem process_page_contains_film_failures e page c d c1 items :
  get_json e (TopRated page) default_max_retries c = (Ok (PDict d), c1) ->
  py_get (PDict d) "results" (PList []) = Ok (PList items) ->
  exists l c',
    process_page e page c = (Ok l, c') /\
    (List.length l <= List.length items)%nat.
Proof.
  intros Hj Hres. unfold process_page, bind. rewrite Hj.
  destruct (py_truthy (PDict d)); cbn [negb].
  - unfold lift. rewrite Hres. cbn [py_iter].
    destruct (process_movies_added e items [] c1) as (added & Hfst & Hlen & _).
    destruct (process_movies e items [] c1) as [pm c2]. simpl in Hfst. subst pm.
    exists added, c2. split; [reflexivity | exact Hlen].
  - exists [], c1. split; [reflexivity | simpl; lia].
Qed.

Lemma process_page_contains_film_failures_witness :
  exists l c',
    process_page env_two_films 7 0%nat = (Ok l, c') /\
    (List.length l <= List.length [PDict [("id", PInt 1)]; PDict [("id", PInt 2)]])%nat.
Proof.
  apply (process_page_contains_film_failures env_two_films 7 0%nat
           [("results", PList [PDict [("id", PInt 1)]; PDict [("id", PInt 2)]])]
           1%nat);
    reflexivity.
Defined.

(** X14: when the three attempts to fetch the listing all fail in a way
    that is retried, the page processor returns the empty list after
    exactly three requests: no film is requested. *)
Theorem process_page_listing_unavailable e page c :
  (forall i, (i < 3)%nat ->
     retriable e (c + i)%nat (server e (c + i)%nat (TopRated page)) = true) ->
  process_page e page c = (Ok [], (c + 3)%nat).
Proof.
  intros H. unfold process_page, bind, get_json.
  change (Z.to_nat default_max_retries) with 3%nat.
  rewrite (get_json_loop_exhausted e (TopRated page) 3 c).
  - reflexivity.
  - intros i Hi. rewrite retried_retriable. apply H. exact Hi.
Qed.

Lemma process_page_listing_unavailable_witness :
  process_page env_unavailable 7 0%nat = (Ok [], (0 + 3)%nat).
Proof.
  apply (process_page_listing_unavailable env_unavailable 7 0%nat).
  intros i _. reflexivity.
Defined.

(** X15: every record of a page returned by process_page is what the
    enrichment of one of the listed films produced. *)
Theorem process_page_records_enriched e page c l c' f :
  process_page e page c = (Ok l, c') ->
  In f l ->
  exists top c1 res items movie c0 c2,
    get_json e (TopRated page) default_max_retries c = (Ok top, c1) /\
    py_get top "results" (PList []) = Ok res /\
    py_iter res = Ok items /\
    In movie items /\
    enrich e movie c0 = (Ok (Some f), c2).
Proof.
  intros H Hin. apply process_page_inv in H.
  destruct H as [(top & _ & _ & ->)|(top & c1 & res & items & Hj & _ & Hres & Hit & Hpm)];
    [destruct Hin|].
  destruct (process_movies_added e items [] c1) as (added & Hfst & _ & Hadd).
  rewrite Hpm in Hfst. simpl in Hfst. subst l.
  destruct (Hadd f Hin) as (movie & c0 & c2 & Hm & He).
  exists top, c1, res, items, movie, c0, c2. auto.
Qed.

Lemma process_page_records_enriched_witness :
  exists top c1 res items movie c0 c2,
    get_json env_two_films (TopRated 7) default_max_retries 0%nat = (Ok top, c1) /\
    py_get top "results" (PList []) = Ok res /\
    py_iter res = Ok items /\
    In movie items /\
    enrich env_two_films movie c0 = (Ok (Some film_1), c2).
Proof.
  apply (process_page_records_enriched env_two_films 7 0%nat [film_1] 7%nat film_1).
  - reflexivity.
  - left. reflexivity.
Defined.

Lemma names_length actors ns : names actors = Ok ns -> List.length ns = List.length actors.
Proof. intros H. apply names_nth in H. tauto. Qed.

Lemma atores_coadjuvantes_of_bound elenco ns :
  atores_coadjuvantes_of elenco = Ok ns -> (List.length ns <= 4)%nat.
Proof.
  unfold atores_coadjuvantes_of. intros H.
  apply bindR_ok in H. destruct H as (n & Hn & H).
  destruct (1 <? n)%nat; [|inversion H; simpl; lia].
  apply bindR_ok in H. destruct H as (others & Hs & H).
  apply bindR_ok in H. destruct H as (actors & Hi & H).
  apply names_length in H. rewrite H.
  destruct elenco; simpl in Hs; try discriminate; inversion Hs; subst others;
    simpl in Hi; inversion Hi; subst actors.
  - unfold chars. rewrite length_map, list_ascii_of_string_of_list_ascii.
    unfold slice. rewrite length_firstn. lia.
  - unfold slice. rewrite length_firstn. lia.
Qed.

(** X16: every record of a page returned by process_page has at most
    four supporting names. *)
Theorem process_page_supporting_bound e page c l c' f :
  process_page e page c = (Ok l, c') ->
  In f l ->
  (List.length (atoresCoadjuvantes f) <= 4)%nat.
Proof.
  intros H Hin. apply process_page_inv in H.
  destruct H as [(top & _ & _ & ->)|(top & c1 & res & items & _ & _ & _ & _ & Hpm)];
    [destruct Hin|].
  destruct (process_movies_added e items [] c1) as (added & Hfst & _ & Hadd).
  rewrite Hpm in Hfst. simpl in Hfst. subst l.
  destruct (Hadd f Hin) as (movie & c0 & c2 & _ & He).
  apply enrich_inv in He.
  destruct He as (movie_id & details & k1 & credits & k2 & elenco & ator &
                  _ & _ & _ & _ & _ & _ & _ & _ & _ & _ & Hco & _).
  apply (atores_coadjuvantes_of_bound elenco). exact Hco.
Qed.

Lemma process_page_supporting_bound_witness :
  (List.length (atoresCoadjuvantes film_1) <= 4)%nat.
Proof.
  apply (process_page_supporting_bound env_two_films 7 0%nat [film_1] 7%nat film_1).
  - reflexivity.
  - left. reflexivity.
Defined.

(** X17: a page whose listing holds n films costs at most 3 + 9 n
    requests: three for the listing and, for each film, three for the
    details, three for the credits and three for the lead. *)
Theorem process_page_request_bound e page c top c1 res items :
  get_json e (TopRated page) default_max_retries c = (Ok top, c1) ->
  py_get top "results" (PList []) = Ok res ->
  py_iter res = Ok items ->
  (c <= snd (process_page e page c) <= c + 3 + 9 * List.length items)%nat.
Proof.
  intros Hj Hres Hit.
  pose proof (within_get_json e (TopRated page) c) as Hc. rewrite Hj in Hc. simpl in Hc.
  unfold process_page, bind. rewrite Hj.
  destruct (py_truthy top); cbn [negb].
  - unfold lift. rewrite Hres, Hit.
    pose proof (process_movies_clock e items [] c1) as Hm.
    destruct (process_movies e items [] c1) as [pm c2]. simpl in *. lia.
  - simpl. lia.
Qed.

Lemma process_page_request_bound_witness :
  (0 <= snd (process_page env_two_films 7 0%nat)
   <= 0 + 3 + 9 * List.length [PDict [("id", PInt 1)]; PDict [("id", PInt 2)]])%nat.
Proof.
  apply (process_page_request_bound env_two_films 7 0%nat
           (PDict [("results", PList [PDict [("id", PInt 1)]; PDict [("id", PInt 2)]])])
           1%nat
           (PList [PDict [("id", PInt 1)]; PDict [("id", PInt 2)]]));
    reflexivity.
Defined.

(** ** save_to_mongodb *)

(** The four ways the [try] block can end. *)
Lemma save_body_cases f movies w :
  let new := fresh (store w) movies in
  (exists x, save_body f movies w = (Raise x, w)) \/
  (novos (map titulo (store w)) movies = Ok new /\ new = [] /\
   save_body f movies w = (Ok 0, w)) \/
  (novos (map titulo (store w)) movies = Ok new /\
   (forall k, f <> InsertError k) /\
   save_body f movies w = (Ok (Z.of_nat (List.length new)), add_docs new w)) \/
  (novos (map titulo (store w)) movies = Ok new /\
   exists k, f = InsertError k /\
   save_body f movies w = (Raise PyMongoError, add_docs (firstn k new) w)).
Proof.
  unfold save_body, bind, connect_to_mongodb, find_titles, lift, ret, py_set.
  destruct f; try (left; eexists; reflexivity);
    (destruct (forallb py_hashable (map titulo (store w)));
       [|left; eexists; reflexivity]);
    (destruct (novos (map titulo (store w)) movies) as [l|x] eqn:Hn;
       [|left; eexists; reflexivity]);
    pose proof (novos_fresh _ _ _ Hn) as Hl; subst l;
    (destruct (fresh (store w) movies) as [|a l] eqn:Hfr;
       [right; left; auto|]).
  - right. right. left. split; [reflexivity|]. split; [discriminate | reflexivity].
  - right. right. right. split; [reflexivity|]. exists written. auto.
Qed.

(** X18: save_to_mongodb only appends to the collection: the documents
    stored before the call stay as they are and in place, and every
    document added is a film of the batch whose title was not in the
    collection. *)
Theorem save_to_mongodb_only_appends e movies w :
  exists added,
    store (snd (save_to_mongodb e movies w)) = store w ++ added /\
    forall d, In d added -> In d movies /\ title_in (titulo d) (store w) = false.
Proof.
  destruct (save_to_mongodb_effect e movies w) as (k & Hs & _).
  exists (firstn k (fresh (store w) movies)). split; [exact Hs|].
  intros d Hd. apply In_firstn in Hd. apply fresh_In. exact Hd.
Qed.

Lemma save_to_mongodb_cases e movies w :
  let new := fresh (store w) movies in
  let r := save_to_mongodb e movies w in
  (fst r = 0 /\ store (snd r) = store w) \/
  ((forall k, mongo_fault_at e (saves w) <> InsertError k) /\
   fst r = Z.of_nat (List.length new) /\ store (snd r) = store w ++ new) \/
  (exists k, mongo_fault_at e (saves w) = InsertError k /\
   novos (map titulo (store w)) movies = Ok new /\
   fst r = 0 /\ store (snd r) = store w ++ firstn k new).
Proof.
  unfold save_to_mongodb. destruct movies as [|m ms]; [left; auto|].
  remember (m :: ms) as movies. clear Heqmovies.
  destruct (save_body_cases (mongo_fault_at e (saves w)) movies (begin_save w))
    as [[x H]|[(Hn & Hnil & H)|[(Hn & Hf & H)|(Hn & k & Hf & H)]]];
    rewrite H; simpl.
  - left. auto.
  - left. auto.
  - right. left. auto.
  - right. right. exists k. auto.
Qed.

(** X19: unless insert_many fails, the number save_to_mongodb returns
    is the number of documents the call added to the collection. *)
Theorem save_to_mongodb_count_is_growth e movies w :
  (forall k, mongo_fault_at e (saves w) <> InsertError k) ->
  Z.of_nat (List.length (store (snd (save_to_mongodb e movies w))))
  = Z.of_nat (List.length (store w)) + fst (save_to_mongodb e movies w).
Proof.
  intros Hf.
  destruct (save_to_mongodb_cases e movies w)
    as [[Hn Hs]|[(_ & Hn & Hs)|(k & Hk & _)]].
  - rewrite Hn, Hs. lia.
  - rewrite Hn, Hs, length_app. lia.
  - destruct (Hf k Hk).
Qed.

Lemma save_to_mongodb_count_is_growth_witness :
  Z.of_nat (List.length (store (snd (save_to_mongodb env_two_films
                                       [film_titled "A" 2010; film_titled "X" 1954]
                                       (add_docs [film_1] world0)))))
  = Z.of_nat (List.length (store (add_docs [film_1] world0)))
    + fst (save_to_mongodb env_two_films
             [film_titled "A" 2010; film_titled "X" 1954]
             (add_docs [film_1] world0)).
Proof.
  apply (save_to_mongodb_count_is_growth env_two_films
           [film_titled "A" 2010; film_titled "X" 1954]
           (add_docs [film_1] world0)).
  intros k. discriminate.
Defined.

(** X20: the number save_to_mongodb returns is between 0 and the size of
    the batch. *)
Theorem save_to_mongodb_count_bounds e movies w :
  0 <= fst (save_to_mongodb e movies w) <= Z.of_nat (List.length movies).
Proof.
  destruct (save_to_mongodb_count e movies w) as [H|H]; rewrite H; [lia|].
  unfold fresh. pose proof (filter_length_le
    (fun f => negb (title_in (titulo f) (store w))) movies). lia.
Qed.

Lemma novos_unhashable titles : forall movies f,
  In f movies -> py_hashable (titulo f) = false ->
  exists x, novos titles movies = Raise x.
Proof.
  induction movies as [|m rest IH]; intros f Hin Hf; [destruct Hin|].
  simpl. unfold py_in. destruct Hin as [->|Hin].
  - rewrite Hf. simpl. eauto.
  - destruct (py_hashable (titulo m)); simpl; [|eauto].
    destruct (IH f Hin Hf) as [x Hx]. rewrite Hx. simpl. eauto.
Qed.

(** X21: when one film of the batch has a title that cannot be hashed
    (a list or a dict), the call stores nothing, not even the other
    films of the batch, and returns 0. *)
Theorem save_to_mongodb_unhashable_title e movies w f :
  In f movies ->
  py_hashable (titulo f) = false ->
  fst (save_to_mongodb e movies w) = 0 /\
  store (snd (save_to_mongodb e movies w)) = store w.
Proof.
  intros Hin Hf.
  destruct (novos_unhashable (map titulo (store w)) movies f Hin Hf) as [x Hx].
  unfold save_to_mongodb. destruct movies as [|m ms]; [destruct Hin|].
  remember (m :: ms) as movies. clear Heqmovies.
  destruct (save_body_cases (mongo_fault_at e (saves w)) movies (begin_save w))
    as [[y H]|[(Hn & _)|[(Hn & _)|(Hn & _)]]];
    try (simpl in Hn; congruence).
  rewrite H. auto.
Qed.

Lemma save_to_mongodb_unhashable_title_witness :
  fst (save_to_mongodb env_two_films [film_titled "X" 1954; film_list_title] world0) = 0 /\
  store (snd (save_to_mongodb env_two_films [film_titled "X" 1954; film_list_title] world0))
  = store world0.
Proof.
  apply (save_to_mongodb_unhashable_title env_two_films
           [film_titled "X" 1954; film_list_title] world0 film_list_title).
  - right. left. reflexivity.
  - reflexivity.
Defined.

(** X22: when insert_many fails after writing k documents, the call
    returns 0 although the first k new films are in the collection
    (titles of the collection and of the batch being hashable). *)
Theorem save_to_mongodb_partial_insert e movies w k :
  mongo_fault_at e (saves w) = InsertError k ->
  forallb py_hashable (map titulo (store w)) = true ->
  forallb (fun f => py_hashable (titulo f)) movies = true ->
  fst (save_to_mongodb e movies w) = 0 /\
  store (snd (save_to_mongodb e movies w))
  = store w ++ firstn k (fresh (store w) movies).
Proof.
  intros Hf Hs Hm. unfold save_to_mongodb.
  destruct movies as [|m ms].
  { simpl. rewrite firstn_nil, List.app_nil_r. auto. }
  remember (m :: ms) as movies. clear Heqmovies.
  rewrite Hf. unfold save_body, bind, connect_to_mongodb, find_titles, lift, ret, py_set.
  simpl store. rewrite Hs.
  destruct (novos_hashable (map titulo (store w)) movies Hm) as [l Hl].
  rewrite Hl. apply novos_fresh in Hl. subst l.
  destruct (fresh (store w) movies) as [|a l] eqn:Hfr; simpl.
  - rewrite firstn_nil, List.app_nil_r. auto.
  - auto.
Qed.

Lemma save_to_mongodb_partial_insert_witness :
  fst (save_to_mongodb env_insert_breaks homonyms world0) = 0 /\
  store (snd (save_to_mongodb env_insert_breaks homonyms world0))
  = store world0 ++ firstn 1 (fresh (store world0) homonyms).
Proof.
  apply (save_to_mongodb_partial_insert env_insert_breaks homonyms world0 1);
    reflexivity.
Defined.

(** ** main *)

Lemma py_range_empty a b : b <= a -> py_range a b = [].
Proof.
  intros H. unfold py_range. replace (Z.to_nat (b - a)) with 0%nat by lia.
  reflexivity.
Qed.

(** X23: a run started beyond the last page does nothing: no request,
    no write to the collection or to page.txt, and a total of 0. *)
Theorem main_nothing_to_do e P w :
  END_PAGE < P ->
  main e P w = (w, 0).
Proof.
  intros H. unfold main. rewrite py_range_empty by lia. reflexivity.
Qed.

Lemma main_nothing_to_do_witness : main env_two_films 501 world0 = (world0, 0).
Proof.
  apply (main_nothing_to_do env_two_films 501 world0). reflexivity.
Defined.

Lemma map_seq_shift (f g : nat -> Z) n : forall s t,
  (forall i, f (s + i)%nat = g (t + i)%nat) ->
  map f (seq s n) = map g (seq t n).
Proof.
  induction n as [|n IH]; intros s t H; simpl; [reflexivity|].
  f_equal.
  - specialize (H 0%nat). rewrite !Nat.add_0_r in H. exact H.
  - apply IH. intros i. specialize (H (S i)).
    rewrite !Nat.add_succ_r in H. exact H.
Qed.

Lemma py_range_split a m b :
  a <= m <= b -> py_range a b = py_range a m ++ py_range m b.
Proof.
  intros H. unfold py_range.
  replace (Z.to_nat (b - a)) with (Z.to_nat (m - a) + Z.to_nat (b - m))%nat by lia.
  rewrite seq_app, map_app. f_equal.
  apply map_seq_shift. intros i. lia.
Qed.

(** The world a round leaves does not depend on the running total, and
    the round adds its count to the total. *)
Lemma main_page_total e page w t :
  main_page e page (w, t)
  = (fst (main_page e page (w, 0)), t + snd (main_page e page (w, 0))).
Proof.
  unfold main_page.
  destruct (process_with_retries e page 3 (clock w)) as [page_movies c].
  destruct page_movies as [|m ms].
  - simpl. f_equal; lia.
  - destruct (save_to_mongodb e (m :: ms) (set_clock c w)) as [n w2]. simpl.
    f_equal; lia.
Qed.

Lemma run_pages_cons e p rest st :
  run_pages e (p :: rest) st = run_pages e rest (main_page e p st).
Proof. reflexivity. Qed.

Lemma run_pages_total e : forall pages w t,
  run_pages e pages (w, t)
  = (fst (run_pages e pages (w, 0)), t + snd (run_pages e pages (w, 0))).
Proof.
  induction pages as [|p rest IH]; intros w t.
  - simpl. f_equal; lia.
  - rewrite !run_pages_cons. rewrite (main_page_total e p w t).
    destruct (main_page e p (w, 0)) as [w1 n1]. cbn [fst snd].
    rewrite (IH w1 (t + n1)), (IH w1 n1). cbn [fst snd]. f_equal; lia.
Qed.

(** X24: a run stopped after the round of page m-1 and started again
    resumes where it stopped: page.txt reads m, and the new run from m
    ends in the world an uninterrupted run ends in, the two totals
    adding up to its total. *)
Theorem main_resumable e P m w :
  P < m <= END_PAGE + 1 ->
  let stopped := run_pages e (py_range P m) (w, 0) in
  fst (load_start_page (fst stopped)) = Ok m /\
  fst (main e P w) = fst (main e m (fst stopped)) /\
  snd (main e P w) = snd stopped + snd (main e m (fst stopped)).
Proof.
  intros H stopped. split; [|].
  - apply load_page_txt. subst stopped.
    pose proof (run_pages_page_txt e P (Z.to_nat (m - P - 1)) (w, 0)) as Hp.
    replace (P + Z.of_nat (S (Z.to_nat (m - P - 1)))) with m in Hp by lia.
    exact Hp.
  - unfold main. rewrite (py_range_split P m (END_PAGE + 1)) by lia.
    rewrite run_pages_app. fold stopped.
    destruct stopped as [w1 t1]. simpl fst. simpl snd.
    rewrite (run_pages_total e _ w1 t1). simpl. auto.
Qed.

Lemma main_resumable_witness :
  let stopped := run_pages env_two_films (py_range 499 500) (world0, 0) in
  fst (load_start_page (fst stopped)) = Ok 500 /\
  fst (main env_two_films 499 world0) = fst (main env_two_films 500 (fst stopped)) /\
  snd (main env_two_films 499 world0)
  = snd stopped + snd (main env_two_films 500 (fst stopped)).
Proof.
  apply (main_resumable env_two_films 499 500 world0). unfold END_PAGE. lia.
Defined.

Lemma main_page_growth e page w t :
  (forall n k, mongo_fault_at e n <> InsertError k) ->
  Z.of_nat (List.length (store (fst (main_page e page (w, t)))))
  - Z.of_nat (List.length (store w))
  = snd (main_page e page (w, t)) - t.
Proof.
  intros Hf. unfold main_page.
  destruct (process_with_retries e page 3 (clock w)) as [page_movies c].
  destruct page_movies as [|m ms]; [simpl; lia|].
  destruct (save_to_mongodb_cases e (m :: ms) (set_clock c w))
    as [[Hn Hs]|[(_ & Hn & Hs)|(k & Hk & _)]].
  - destruct (save_to_mongodb e (m :: ms) (set_clock c w)) as [n w2].
    simpl in *. rewrite Hs. lia.
  - destruct (save_to_mongodb e (m :: ms) (set_clock c w)) as [n w2].
    simpl in *. rewrite Hs, length_app. lia.
  - destruct (Hf _ _ Hk).
Qed.

(** X25: unless an insert_many fails during the run, the total the run
    reports grows by exactly the number of documents it adds to the
    collection. *)
Theorem run_pages_total_is_growth e pages w t :
  (forall n k, mongo_fault_at e n <> InsertError k) ->
  snd (run_pages e pages (w, t)) - t
  = Z.of_nat (List.length (store (fst (run_pages e pages (w, t)))))
    - Z.of_nat (List.length (store w)).
Proof.
  intros Hf. revert w t.
  induction pages as [|p rest IH]; intros w t; [simpl; lia|].
  rewrite run_pages_cons.
  pose proof (main_page_growth e p w t Hf) as Hp.
  destruct (main_page e p (w, t)) as [w1 t1]. cbn [fst snd] in Hp.
  specialize (IH w1 t1). lia.
Qed.

Lemma run_pages_total_is_growth_witness :
  snd (run_pages env_two_films [7; 8] (world0, 0)) - 0
  = Z.of_nat (List.length (store (fst (run_pages env_two_films [7; 8] (world0, 0)))))
    - Z.of_nat (List.length (store world0)).
Proof.
  apply (run_pages_total_is_growth env_two_films [7; 8] world0 0).
  intros n k. discriminate.
Defined.

Lemma checkpoints_app a b : checkpoints (a ++ b) = checkpoints a ++ checkpoints b.
Proof.
  induction a as [|[docs|text] a IH]; simpl; [reflexivity | exact IH |].
  rewrite IH. reflexivity.
Qed.

(** What one round does to the collection and to the journal. *)
Lemma main_page_world e page w t :
  let w' := fst (main_page e page (w, t)) in
  (exists added, store w' = store w ++ added) /\
  checkpoints (journal w') = checkpoints (journal w) ++ [py_str (page + 1)].
Proof.
  unfold main_page.
  destruct (process_with_retries e page 3 (clock w)) as [page_movies c].
  destruct page_movies as [|m ms].
  - simpl. split; [exists []; rewrite List.app_nil_r; reflexivity|].
    apply checkpoints_app.
  - destruct (save_to_mongodb_effect e (m :: ms) (set_clock c w))
      as (k & Hs & Hj & _).
    destruct (save_to_mongodb e (m :: ms) (set_clock c w)) as [n w2].
    simpl in *. split; [eauto|].
    rewrite checkpoints_app. simpl. f_equal.
    destruct Hj as [[Hj _]|Hj]; rewrite Hj; [reflexivity|].
    rewrite checkpoints_app. simpl. apply List.app_nil_r.
Qed.

(** X26: a run never removes or changes a document of the collection:
    the collection it leaves is the collection it found, followed by
    what it added. *)
Theorem run_pages_store_grows e pages w t :
  exists added, store (fst (run_pages e pages (w, t))) = store w ++ added.
Proof.
  revert w t.
  induction pages as [|p rest IH]; intros w t.
  - exists []. simpl. rewrite List.app_nil_r. reflexivity.
  - rewrite run_pages_cons.
    destruct (main_page_world e p w t) as [[a1 H1] _].
    destruct (main_page e p (w, t)) as [w1 t1]. cbn [fst] in H1.
    destruct (IH w1 t1) as [a2 H2]. exists (a1 ++ a2).
    rewrite H2, H1, app_assoc. reflexivity.
Qed.

(** X27: a run writes page.txt exactly once per page, in page order,
    each time with the number of the next page. *)
Theorem run_pages_checkpoints e pages w t :
  checkpoints (journal (fst (run_pages e pages (w, t))))
  = checkpoints (journal w) ++ map (fun page => py_str (page + 1)) pages.
Proof.
  revert w t.
  induction pages as [|p rest IH]; intros w t.
  - simpl. rewrite List.app_nil_r. reflexivity.
  - rewrite run_pages_cons.
    destruct (main_page_world e p w t) as [_ H1].
    destruct (main_page e p (w, t)) as [w1 t1]. cbn [fst] in H1.
    rewrite (IH w1 t1), H1, <- app_assoc. reflexivity.
Qed.

(** ** The checkpoint file *)

Lemma lstrip_spaces a l :
  Forall (fun c => is_space c = true) a -> lstrip (a ++ l) = lstrip l.
Proof.
  induction 1 as [|c a Hc Ha IH]; simpl; [reflexivity|].
  rewrite Hc. exact IH.
Qed.

Lemma lstrip_spaces_only a :
  Forall (fun c => is_space c = true) a -> lstrip a = [].
Proof.
  intros H. rewrite <- (List.app_nil_r a). rewrite lstrip_spaces by exact H.
  reflexivity.
Qed.

Lemma lstrip_no_space_app l b :
  Forall (fun c => is_space c = false) l -> l <> [] -> lstrip (l ++ b) = l ++ b.
Proof.
  intros H Hne. destruct H as [|c l Hc Hl]; [congruence|].
  simpl. rewrite Hc. reflexivity.
Qed.

Lemma strip_padded a l b :
  Forall (fun c => is_space c = true) a ->
  Forall (fun c => is_space c = false) l ->
  Forall (fun c => is_space c = true) b ->
  strip (a ++ l ++ b) = l.
Proof.
  intros Ha Hl Hb. unfold strip. rewrite lstrip_spaces by exact Ha.
  destruct l as [|c l'] eqn:El.
  - simpl. rewrite (lstrip_spaces_only b Hb). reflexivity.
  - rewrite <- El in *. rewrite lstrip_no_space_app by (auto; congruence).
    rewrite rev_app_distr, lstrip_spaces by (apply Forall_rev; exact Hb).
    rewrite lstrip_no_space by (apply Forall_rev; exact Hl).
    apply rev_involutive.
Qed.

(** X28: the start page is read back from page.txt as main wrote it,
    and white space around the number, such as a final line feed, is
    ignored; reading changes nothing. *)
Theorem load_start_page_padded w z before after :
  Forall (fun c => is_space c = true) before ->
  Forall (fun c => is_space c = true) after ->
  page_txt w
  = Some (string_of_list_ascii
            (before ++ list_ascii_of_string (py_str z) ++ after)) ->
  load_start_page w = (Ok z, w).
Proof.
  intros Hb Ha Hp. unfold load_start_page. rewrite Hp. f_equal.
  unfold py_strip. rewrite list_ascii_of_string_of_list_ascii.
  rewrite strip_padded by (auto using py_str_no_space).
  rewrite string_of_list_ascii_of_string. simpl.
  apply int_of_string_py_str.
Qed.

Lemma load_start_page_padded_witness :
  load_start_page world_at_12 = (Ok 12, world_at_12).
Proof.
  apply (load_start_page_padded world_at_12 12 [] ["010"%char]).
  - constructor.
  - repeat constructor.
  - reflexivity.
Defined.

(** ** process_page: a film whose details cannot be fetched *)

(** X29: when the three attempts to fetch a film's details all fail in
    a way that is retried, the film is left out after exactly those
    three requests: its credits and its lead are not requested. *)
Theorem enrich_details_unavailable e movie movie_id c :
  py_getitem movie "id" = Ok movie_id ->
  (forall i, (i < 3)%nat ->
     retriable e (c + i)%nat (server e (c + i)%nat (MovieDetails movie_id)) = true) ->
  enrich e movie c = (Ok None, (c + 3)%nat).
Proof.
  intros Hid H. unfold enrich, bind, lift. rewrite Hid. unfold get_json.
  change (Z.to_nat default_max_retries) with 3%nat.
  rewrite (get_json_loop_exhausted e (MovieDetails movie_id) 3 c).
  - reflexivity.
  - intros i Hi. rewrite retried_retriable. apply H. exact Hi.
Qed.

Lemma enrich_details_unavailable_witness :
  enrich env_two_films (PDict [("id", PInt 2)]) 4%nat = (Ok None, (4 + 3)%nat).
Proof.
  apply (enrich_details_unavailable env_two_films (PDict [("id", PInt 2)]) (PInt 2) 4%nat).
  - reflexivity.
  - intros i _. reflexivity.
Defined.
